(** * The payment-check route handler

    A shallow embedding of [src/my-app/app/api/check-payment/route.ts]: the
    single [GET] handler that asks a block explorer for the recent USDT
    (BEP-20) transfers of an address, looks for a transfer of the expected
    amount, and degrades to a manual-verification report when the explorer
    cannot be reached.

    The file has four parts.
    - The fragment of the JavaScript runtime the handler relies on: values,
      thrown errors, strings, [parseInt], [parseFloat], [Date].
    - The handler itself, statement by statement, then the notions its
      properties are stated with and the inputs of the examples.
    - The properties of the handler, for every engine and every world.
    - The properties at work on concrete requests and explorer answers.

    Conventions of the embedding.
    - JavaScript numbers are IEEE 754 doubles: Rocq's primitive [float].
    - JavaScript strings are modelled by [string]; the embedding is exact on
      ASCII text (addresses, URLs, digits), which is all the handler's own
      literals contain.
    - [Math.pow] and the number-to-string conversion are left to the engine by
      ECMA-262 (the first is implementation-approximated, the second is the
      shortest round-trip printer); they are Section variables, so every
      general statement holds for every engine.
    - Time values are integers of milliseconds well below 2^53, on which the
      double arithmetic of [Date] is exact: they are kept in [Z].
    - Logging, and the diagnostic stamps [timestamp], [requestTime] and
      [stack] of the [debugInfo] bags, are left out. *)

From Stdlib Require Import ZArith String Ascii List Bool Lia Floats DecimalString.
Import ListNotations.

#[local] Set Warnings "-register-all,-inexact-float".
#[local] Open Scope string_scope.
#[local] Open Scope Z_scope.

(* ================================================================= *)
(** ** JavaScript values *)

(** What [JSON.parse] produces, plus [undefined], which reading a missing
    property produces.  An object is its list of own properties, looked up by
    first match. *)
Inductive js_value : Type :=
| JUndefined
| JNull
| JBool (b : bool)
| JNumber (x : float)
| JString (s : string)
| JArray (items : list js_value)
| JObject (props : list (string * js_value)).

(** A thrown value: an [Error] instance with its [message], or anything
    else. *)
Inductive thrown : Type :=
| ErrorObject (message : string)
| NotAnError.

(** The outcome of evaluating an expression: a value, or an abrupt
    completion by [throw]. *)
Inductive completion (A : Type) : Type :=
| Normal (a : A)
| Throw (e : thrown).

Arguments Normal {A} a.
Arguments Throw {A} e.

Definition bind {A B : Type} (c : completion A) (k : A -> completion B) : completion B :=
  match c with
  | Normal a => k a
  | Throw e => Throw e
  end.

Notation "x <- c ;; k" := (bind c (fun x => k))
  (at level 61, c at next level, right associativity).

(** [Array.prototype.map] with a callback that may throw and that sees the
    index of the element: elements are visited in order and the first throw
    ends the traversal. *)
Fixpoint mapM_from {A B : Type} (f : nat -> A -> completion B) (i : nat) (l : list A)
  : completion (list B) :=
  match l with
  | [] => Normal []
  | a :: l' =>
      b <- f i a ;;
      bs <- mapM_from f (S i) l' ;;
      Normal (b :: bs)
  end.

Definition is_normal {A : Type} (c : completion A) : bool :=
  match c with
  | Normal _ => true
  | Throw _ => false
  end.

(** [ToBoolean]: the falsy values are [undefined], [null], [false], [0],
    [-0], [NaN] and the empty string. *)
Definition truthy (v : js_value) : bool :=
  match v with
  | JUndefined | JNull => false
  | JBool b => b
  | JNumber x => negb (PrimFloat.eqb x 0 || PrimFloat.is_nan x)
  | JString s => negb (String.eqb s "")
  | JArray _ | JObject _ => true
  end.

(** [a || b] *)
Definition or_else (a b : js_value) : js_value :=
  if truthy a then a else b.

(** [v === "s"] *)
Definition strict_eq_string (v : js_value) (s : string) : bool :=
  match v with
  | JString t => String.eqb t s
  | _ => false
  end.

(** [Array.isArray(v)] *)
Definition isArray (v : js_value) : bool :=
  match v with
  | JArray _ => true
  | _ => false
  end.

Fixpoint lookup (name : string) (props : list (string * js_value)) : js_value :=
  match props with
  | [] => JUndefined
  | (k, v) :: rest => if String.eqb k name then v else lookup name rest
  end.

(** V8's wording of the errors the handler can run into. *)
Definition cannot_read (base name : string) : thrown :=
  ErrorObject ("Cannot read properties of " ++ base ++ " (reading '" ++ name ++ "')").

Definition not_a_function (expr : string) : thrown :=
  ErrorObject (expr ++ " is not a function").

Definition cannot_convert : thrown :=
  ErrorObject "Cannot convert object to primitive value".

Definition invalid_time : thrown :=
  ErrorObject "Invalid time value".

(** [v.name], for the property names the handler reads ([status],
    [message], [result], [value], [tokenDecimal], [timeStamp], [to], [hash],
    [from], [confirmations], [blockNumber]): none of them is defined on the
    prototype of a string, number, boolean or array, so on every value but an
    object the read gives [undefined], and on [null] and [undefined] it
    throws a [TypeError]. *)
Definition get (v : js_value) (name : string) : completion js_value :=
  match v with
  | JUndefined => Throw (cannot_read "undefined" name)
  | JNull => Throw (cannot_read "null" name)
  | JObject props => Normal (lookup name props)
  | _ => Normal JUndefined
  end.

(* ================================================================= *)
(** ** Strings *)

Fixpoint drop (n : nat) (s : string) : string :=
  match n, s with
  | S n', String _ s' => drop n' s'
  | _, _ => s
  end.

(** [hay.includes(needle)] *)
Fixpoint includes (hay needle : string) : bool :=
  String.prefix needle hay ||
  match hay with
  | EmptyString => false
  | String _ hay' => includes hay' needle
  end.

(** [s.replace(pat, rep)] with a string pattern and a replacement free of
    [$]: the first occurrence of [pat] is replaced. *)
Fixpoint replace (pat rep s : string) : string :=
  if String.prefix pat s then rep ++ drop (String.length pat) s
  else match s with
       | EmptyString => EmptyString
       | String c s' => String c (replace pat rep s')
       end.

(** [s.split(sep)[0]] for a non-empty separator: what stands before the
    first occurrence of [sep], all of [s] when there is none. *)
Fixpoint split_head (sep s : string) : string :=
  if String.prefix sep s then EmptyString
  else match s with
       | EmptyString => EmptyString
       | String c s' => String c (split_head sep s')
       end.

Definition lower_ascii (c : ascii) : ascii :=
  let n := nat_of_ascii c in
  if (65 <=? n)%nat && (n <=? 90)%nat then ascii_of_nat (n + 32) else c.

(** [s.toLowerCase()] *)
Fixpoint toLowerCase (s : string) : string :=
  match s with
  | EmptyString => EmptyString
  | String c s' => String (lower_ascii c) (toLowerCase s')
  end.

Definition is_white_space (c : ascii) : bool :=
  let n := nat_of_ascii c in
  ((9 <=? n)%nat && (n <=? 13)%nat) || (n =? 32)%nat.

Fixpoint trim_start (s : string) : string :=
  match s with
  | String c s' => if is_white_space c then trim_start s' else s
  | EmptyString => EmptyString
  end.

(** An optional sign: whether it is [-], and the rest. *)
Definition take_sign (s : string) : bool * string :=
  match s with
  | String "-" s' => (true, s')
  | String "+" s' => (false, s')
  | _ => (false, s)
  end.

(** The decimal numeral of a natural number, as a template literal prints a
    small integer. *)
Definition decimal (n : N) : string :=
  NilZero.string_of_uint (N.to_uint n).

Fixpoint zeros (n : nat) : string :=
  match n with
  | O => EmptyString
  | S n' => String "0" (zeros n')
  end.

(** [String(n).padStart(width, "0")] *)
Definition pad (width : nat) (n : Z) : string :=
  let d := decimal (Z.to_N n) in
  zeros (width - String.length d) ++ d.

(* ================================================================= *)
(** ** Numbers *)

(** The double nearest to an integer (ties to even, overflow to an
    infinity). *)
Definition Z2F (n : Z) : float :=
  SF2Prim (binary_normalize prec emax n 0 false).

(** The double nearest to [m * 10^e], for [0 < m], with the sign [neg]. *)
Definition decimal_to_float (neg : bool) (m e : Z) : float :=
  if m =? 0 then (if neg then neg_zero else zero)
  else if 0 <=? e then Z2F ((if neg then - m else m) * 10 ^ e)
  else SF2Prim (SFdiv prec emax (S754_finite neg (Z.to_pos m) 0)
                                (S754_finite false (Z.to_pos (10 ^ (- e))) 0)).

(** The value of a character as a digit in [radix], if it is one. *)
Definition digit_of (radix : Z) (c : ascii) : option Z :=
  let n := Z.of_nat (nat_of_ascii c) in
  let d := if (48 <=? n) && (n <=? 57) then n - 48
           else if (97 <=? n) && (n <=? 122) then n - 87
           else if (65 <=? n) && (n <=? 90) then n - 55
           else 36 in
  if d <? radix then Some d else None.

(** The integer written by the longest prefix of digits of [s]; [acc] is
    what has been read so far, [None] when no digit has been. *)
Fixpoint read_digits (radix : Z) (s : string) (acc : option Z) : option Z :=
  match s with
  | EmptyString => acc
  | String c s' =>
      match digit_of radix c with
      | Some d =>
          read_digits radix s' (Some (radix * match acc with Some a => a | None => 0 end + d))
      | None => acc
      end
  end.

(** The longest prefix of decimal digits of [s], and the rest. *)
Fixpoint span_digits (s : string) : string * string :=
  match s with
  | EmptyString => (EmptyString, EmptyString)
  | String c s' =>
      match digit_of 10 c with
      | Some _ => let '(ds, rest) := span_digits s' in (String c ds, rest)
      | None => (EmptyString, s)
      end
  end.

Definition digits_value (ds : string) : Z :=
  match read_digits 10 ds None with
  | Some n => n
  | None => 0
  end.

(** [Number.parseInt(s)] on a string, with no radix: leading white space is
    skipped, a sign and a [0x] prefix are honoured, the longest prefix of
    digits is read, and no digit at all gives [NaN].  The integer read is
    rounded to a double exactly (ECMA-262 allows an engine to drop digits
    after the twentieth; V8 does not). *)
Definition parseInt_string (input : string) : float :=
  let '(neg, s) := take_sign (trim_start input) in
  let '(radix, s) :=
    if String.prefix "0x" s || String.prefix "0X" s then (16, drop 2 s) else (10, s) in
  match read_digits radix s None with
  | None => nan
  | Some n => if n =? 0 then (if neg then neg_zero else zero)
              else Z2F (if neg then - n else n)
  end.

(** [Number.parseFloat(s)]: the longest prefix of the trimmed string that
    is a decimal literal (sign, [Infinity] or digits with an optional
    fraction and exponent), rounded to the nearest double; [NaN] when there
    is none. *)
Definition parseFloat (input : string) : float :=
  let '(neg, s) := take_sign (trim_start input) in
  if String.prefix "Infinity" s then (if neg then neg_infinity else infinity)
  else
    let '(ip, r1) := span_digits s in
    let '(fp, r2) :=
      match r1 with
      | String "." t => span_digits t
      | _ => (EmptyString, r1)
      end in
    if (String.length ip =? 0)%nat && (String.length fp =? 0)%nat then nan
    else
      let ex :=
        match r2 with
        | String c t =>
            if Ascii.eqb c "e" || Ascii.eqb c "E" then
              let '(eneg, t') := take_sign t in
              let '(ed, _) := span_digits t' in
              if eneg then - digits_value ed else digits_value ed
            else 0
        | EmptyString => 0
        end in
      decimal_to_float neg (digits_value (ip ++ fp)) (ex - Z.of_nat (String.length fp)).

(* ================================================================= *)
(** ** Dates *)

(** The integer part of a finite double. *)
Definition float_trunc (x : float) : Z :=
  match Prim2SF x with
  | S754_finite s m e => let a := Z.shiftl (Z.pos m) e in if s then - a else a
  | _ => 0
  end.

(** [new Date(x)] for a number [x]: the time value, in milliseconds since
    the epoch, or [None] for an invalid date ([x] not finite, or beyond
    8.64e15 in magnitude). *)
Definition Date_of (x : float) : option Z :=
  if PrimFloat.is_finite x && PrimFloat.leb (PrimFloat.abs x) 8640000000000000
  then Some (float_trunc x)
  else None.

(** The proleptic Gregorian date of a day number (days since 1970-01-01):
    year, month, day. *)
Definition civil_from_days (days : Z) : Z * Z * Z :=
  let z := days + 719468 in
  let era := z / 146097 in
  let doe := z - era * 146097 in
  let yoe := (doe - doe / 1460 + doe / 36524 - doe / 146096) / 365 in
  let doy := doe - (365 * yoe + yoe / 4 - yoe / 100) in
  let mp := (5 * doy + 2) / 153 in
  let d := doy - (153 * mp + 2) / 5 + 1 in
  let m := if mp <? 10 then mp + 3 else mp - 9 in
  let y := yoe + era * 400 + (if m <=? 2 then 1 else 0) in
  (y, m, d).

(** The text of a valid time value: [YYYY-MM-DDTHH:mm:ss.sssZ], the year
    with a sign and six digits outside 0..9999. *)
Definition iso_string (t : Z) : string :=
  let '(y, m, d) := civil_from_days (t / 86400000) in
  let ms := t mod 86400000 in
  let year := if (0 <=? y) && (y <=? 9999) then pad 4 y
              else (if y <? 0 then "-" else "+") ++ pad 6 (Z.abs y) in
  year ++ "-" ++ pad 2 m ++ "-" ++ pad 2 d ++ "T"
       ++ pad 2 (ms / 3600000) ++ ":" ++ pad 2 (ms / 60000 mod 60) ++ ":"
       ++ pad 2 (ms / 1000 mod 60) ++ "." ++ pad 3 (ms mod 1000) ++ "Z".

(** [date.toISOString()]: a [RangeError] on an invalid date. *)
Definition toISOString (date : option Z) : completion string :=
  match date with
  | Some t => Normal (iso_string t)
  | None => Throw invalid_time
  end.

(* ================================================================= *)
(** ** The world around one invocation *)

(** The body of an HTTP response, as reading and parsing it turns out:
    reading it fails, or its text is rejected by [JSON.parse] (a
    [SyntaxError] with a message), or is parsed to a value. *)
Inductive body : Type :=
| Unreadable (e : thrown)
| Malformed (message : string)
| Parsed (v : js_value).

Record Response : Type := {
  status : N;
  statusText : string;
  payload : body
}.

(** [response.ok]: a status in the range 200-299. *)
Definition ok (response : Response) : bool :=
  ((200 <=? status response) && (status response <=? 299))%N.

(** What awaiting [fetch(url, ...)] gives: a rejection (transport failure,
    or the abort of the timeout) or a response. *)
Inductive fetch_result : Type :=
| Rejected (e : thrown)
| Resolved (response : Response).

(** The environment of one invocation: the API key variable, the network,
    and the clock.  The URLs one invocation requests are pairwise distinct
    (the two hosts differ, and the balance query differs from both in its
    action), so the network is a function of the URL.  [Date_now k] is what
    [Date.now()] returns while the transaction of index [k] is normalised. *)
Record World : Type := {
  BSCSCAN_API_KEY : option string;
  fetch : string -> fetch_result;
  Date_now : nat -> Z
}.

(** [searchParams.get] gives a string, or [null] when the parameter is
    absent. *)
Record Request : Type := {
  address_param : option string;
  amount_param : option string
}.

(** [NextResponse.json(body, { status })] *)
Record HttpResponse : Type := {
  http_status : N;
  json : js_value
}.

(** What one invocation does: the response it returns and the URLs it
    requested, in order. *)
Record Outcome : Type := {
  reply : HttpResponse;
  outbound : list string
}.

Definition nullable (s : option string) : js_value :=
  match s with
  | Some s => JString s
  | None => JNull
  end.

(** [${x}] for a string or [null] *)
Definition interpolate (s : option string) : string :=
  match s with
  | Some s => s
  | None => "null"
  end.

Section Handler.

(** The engine's [Math.pow] and [Number.prototype.toString]. *)
Variable Math_pow : float -> float -> float.
Variable Number_toString : float -> string.

(** [ToString(v)], as [parseInt] applies it to its argument.  An array is
    joined with commas, [null] and [undefined] elements printing as nothing;
    a parsed object prints as [[object Object]] unless it has an own
    [toString] property, which is never callable and makes the conversion
    throw. *)
Fixpoint ToString (v : js_value) : completion string :=
  match v with
  | JUndefined => Normal "undefined"
  | JNull => Normal "null"
  | JBool b => Normal (if b then "true" else "false")
  | JNumber x => Normal (Number_toString x)
  | JString s => Normal s
  | JArray items =>
      (fix join (l : list js_value) : completion string :=
         match l with
         | [] => Normal ""
         | x :: rest =>
             s <- match x with
                  | JUndefined | JNull => Normal ""
                  | _ => ToString x
                  end ;;
             match rest with
             | [] => Normal s
             | _ => t <- join rest ;; Normal (s ++ "," ++ t)
             end
         end) items
  | JObject props =>
      if existsb (fun kv => String.eqb (fst kv) "toString") props
      then Throw cannot_convert
      else Normal "[object Object]"
  end.

(** [Number.parseInt(v)] *)
Definition parseInt (v : js_value) : completion float :=
  s <- ToString v ;;
  Normal (parseInt_string s).

(** [v.toLowerCase()], where [expr] is the source text of [v]: only a
    string has the method. *)
Definition call_toLowerCase (expr : string) (v : js_value) : completion string :=
  match v with
  | JString s => Normal (toLowerCase s)
  | JUndefined => Throw (cannot_read "undefined" "toLowerCase")
  | JNull => Throw (cannot_read "null" "toLowerCase")
  | _ => Throw (not_a_function (expr ++ ".toLowerCase"))
  end.

(* ================================================================= *)
(** ** The handler *)

Definition usdtContract : string := "0x55d398326f99059fF775485246999027B3197955".

(** [process.env.BSCSCAN_API_KEY || "YMUR..."] *)
Definition etherscanApiKey (w : World) : string :=
  match BSCSCAN_API_KEY w with
  | Some key => if String.eqb key "" then "YMURRBM3WND7ZIJM8S1C5HEQXQK6W4S45B" else key
  | None => "YMURRBM3WND7ZIJM8S1C5HEQXQK6W4S45B"
  end.

Definition apiEndpoints (address etherscanApiKey : string) : list string :=
  [ "https://api.bscscan.com/api?module=account&action=tokentx&contractaddress="
      ++ usdtContract ++ "&address=" ++ address
      ++ "&page=1&offset=20&sort=desc&apikey=" ++ etherscanApiKey;
    "https://api-bsc.etherscan.io/api?module=account&action=tokentx&contractaddress="
      ++ usdtContract ++ "&address=" ++ address
      ++ "&page=1&offset=20&sort=desc&apikey=" ++ etherscanApiKey ].

(** *** Input validation (lines 9-22) *)

(** [!s] for a string or [null] *)
Definition missing (s : option string) : bool :=
  match s with
  | Some s => String.eqb s ""
  | None => true
  end.

Definition missing_parameters (address expectedAmount : option string) : HttpResponse :=
  {| http_status := 400;
     json := JObject
       [ ("error", JString "Missing parameters");
         ("confirmed", JBool false);
         ("debugInfo", JObject
            [ ("error", JString "Missing address or amount parameter");
              ("address", nullable address);
              ("expectedAmount", nullable expectedAmount) ]) ] |}.

(** *** Endpoint fallback (lines 40-96) *)

(** The message recorded when [fetch] or reading the body throws (lines
    84-94). *)
Definition fetch_error_message (fetchError : thrown) : string :=
  match fetchError with
  | ErrorObject message =>
      if includes message "fetch failed" || includes message "ENOTFOUND"
      then "Network connectivity issue in serverless environment"
      else message
  | NotAnError => "Unknown fetch error"
  end.

(** One turn of the loop: the error it records, or the parsed body that
    ends the loop. *)
Inductive attempt : Type :=
| Failed (error : string)
| Succeeded (parsed : js_value).

Definition tryEndpoint (w : World) (apiUrl : string) : attempt :=
  match fetch w apiUrl with
  | Rejected fetchError => Failed (fetch_error_message fetchError)
  | Resolved response =>
      if ok response then
        match payload response with
        | Unreadable fetchError => Failed (fetch_error_message fetchError)
        | Malformed message => Failed ("JSON parse error: " ++ message)
        | Parsed v => Succeeded v
        end
      else Failed ("HTTP " ++ decimal (status response) ++ ": " ++ statusText response)
  end.

(** The three variables of lines 40-42 after the loop, and the URLs it
    requested. *)
Record Fetched : Type := {
  data : js_value;
  workingEndpoint : option string;
  lastError : option string;
  requested : list string
}.

Fixpoint tryEndpoints (w : World) (urls : list string)
    (lastError : option string) (requested : list string) : Fetched :=
  match urls with
  | [] => {| data := JNull; workingEndpoint := None;
             lastError := lastError; requested := requested |}
  | apiUrl :: rest =>
      match tryEndpoint w apiUrl with
      | Succeeded v =>
          {| data := v; workingEndpoint := Some apiUrl;
             lastError := lastError; requested := (requested ++ [apiUrl])%list |}
      | Failed error =>
          tryEndpoints w rest (Some error) (requested ++ [apiUrl])%list
      end
  end.

(** *** Manual verification mode (lines 99-128) *)

Definition manual_mode (address etherscanApiKey : string) (lastError : option string)
  : HttpResponse :=
  {| http_status := 200;
     json := JObject
       [ ("confirmed", JBool false);
         ("balance", JNumber 0);
         ("transactions", JArray []);
         ("manualMode", JBool true);
         ("apiStatus", JObject
            [ ("status", JString "0");
              ("message", JString ("All API endpoints failed. Last error: "
                                     ++ interpolate lastError));
              ("result", JString "Manual verification required") ]);
         ("debugInfo", JObject
            [ ("error", JString "All API endpoints failed");
              ("lastError", nullable lastError);
              ("testedEndpoints",
                JArray (map (fun url => JString (replace etherscanApiKey "***" url))
                            (apiEndpoints address etherscanApiKey)));
              ("serverlessIssue", JBool true);
              ("manualVerificationUrl",
                JString ("https://bscscan.com/token/" ++ usdtContract ++ "?a=" ++ address));
              ("instructions", JArray
                 [ JString "1. Visit BSCScan manually using the link above";
                   JString "2. Look for recent USDT transfers to your address";
                   JString "3. Copy the transaction hash from BSCScan";
                   JString "4. Use manual verification in the app" ]);
              ("environment", JString "Vercel Serverless") ]) ] |}.

(** *** Transaction processing (lines 142-177) *)

(** [Number.parseInt(tx.value) / Math.pow(10, Number.parseInt(tx.tokenDecimal))] *)
Definition txAmount (tx : js_value) : completion float :=
  value <- get tx "value" ;;
  units <- parseInt value ;;
  tokenDecimal <- get tx "tokenDecimal" ;;
  decimals <- parseInt tokenDecimal ;;
  Normal (units / Math_pow 10 decimals)%float.

(** [new Date(Number.parseInt(tx.timeStamp) * 1000)] *)
Definition txTime (tx : js_value) : completion (option Z) :=
  timeStamp <- get tx "timeStamp" ;;
  seconds <- parseInt timeStamp ;;
  Normal (Date_of (seconds * 1000)%float).

(** [Date.now() - txTime.getTime() < 3600000]: the time value of an invalid
    date is [NaN], which compares false. *)
Definition recent (now : Z) (txTime : option Z) : bool :=
  match txTime with
  | Some t => now - t <? 3600000
  | None => false
  end.

(** [Math.abs(txAmount - Number.parseFloat(expectedAmount)) < 0.001] *)
Definition expected (txAmount : float) (expectedAmount : string) : bool :=
  PrimFloat.ltb (PrimFloat.abs (txAmount - parseFloat expectedAmount)) 0.001.

(** An element of [processedTxs]. *)
Record Processed : Type := {
  hash : js_value;
  from : js_value;
  to : js_value;
  value : float;
  timestamp : string;
  confirmations : js_value;
  isRecent : bool;
  isToAddress : bool;
  isExpectedAmount : bool;
  blockNumber : js_value
}.

(** The callback of [data.result.map] (lines 146-165), [now] being what
    [Date.now()] returns in this call. *)
Definition processTx (address expectedAmount : string) (now : Z) (tx : js_value)
  : completion Processed :=
  amount <- txAmount tx ;;
  time <- txTime tx ;;
  recipient <- get tx "to" ;;
  lowered <- call_toLowerCase "tx.to" recipient ;;
  hash <- get tx "hash" ;;
  from <- get tx "from" ;;
  timestamp <- toISOString time ;;
  confirmations <- get tx "confirmations" ;;
  blockNumber <- get tx "blockNumber" ;;
  Normal {| hash := hash;
            from := from;
            to := recipient;
            value := amount;
            timestamp := timestamp;
            confirmations := confirmations;
            isRecent := recent now time;
            isToAddress := String.eqb lowered (toLowerCase address);
            isExpectedAmount := expected amount expectedAmount;
            blockNumber := blockNumber |}.

Definition processedTxs (w : World) (address expectedAmount : string)
    (result : list js_value) : completion (list Processed) :=
  mapM_from (fun i tx => processTx address expectedAmount (Date_now w i) tx) 0%nat result.

(** Line 168. *)
Definition matching (txs : list Processed) : list Processed :=
  filter (fun tx => isRecent tx && isToAddress tx && isExpectedAmount tx) txs.

(** Line 176: [filter(tx => tx.isToAddress).reduce((sum, tx) => sum + tx.value, 0)] *)
Definition incoming (txs : list Processed) : float :=
  fold_left (fun sum tx => (sum + value tx)%float) (filter isToAddress txs) 0%float.

Definition processed_value (tx : Processed) : js_value :=
  JObject
    [ ("hash", hash tx);
      ("from", from tx);
      ("to", to tx);
      ("value", JNumber (value tx));
      ("timestamp", JString (timestamp tx));
      ("confirmations", confirmations tx);
      ("isRecent", JBool (isRecent tx));
      ("isToAddress", JBool (isToAddress tx));
      ("isExpectedAmount", JBool (isExpectedAmount tx));
      ("blockNumber", blockNumber tx) ].

(** The variables [confirmed], [matchingTransactions] and [balance] of
    lines 132-134. *)
Record Verdict : Type := {
  confirmed : bool;
  matchingTransactions : list Processed;
  balance : float
}.

(** [v.slice(0, 10)] and [v.map] see the elements of an array. *)
Definition elements (v : js_value) : list js_value :=
  match v with
  | JArray items => items
  | _ => []
  end.

(** Lines 132-177, for the parsed body [data]. *)
Definition judge (w : World) (address expectedAmount : string) (data : js_value)
  : completion Verdict :=
  status <- get data "status" ;;
  result <- get data "result" ;;
  if strict_eq_string status "1" && truthy result && isArray result then
    txs <- processedTxs w address expectedAmount (elements result) ;;
    Normal {| confirmed := (0 <? length (matching txs))%nat;
              matchingTransactions := matching txs;
              balance := incoming txs |}
  else Normal {| confirmed := false; matchingTransactions := []; balance := 0 |}.

(** Lines 136-140. *)
Definition apiStatus (data : js_value) : completion js_value :=
  status <- get data "status" ;;
  message <- get data "message" ;;
  result <- get data "result" ;;
  Normal (JObject
    [ ("status", or_else status (JString "0"));
      ("message", or_else message (JString "Unknown error"));
      ("result", or_else result JNull) ]).

(** *** Balance refinement (lines 180-209) *)

(** Line 182. *)
Definition balanceUrl (workingEndpoint : string) : string :=
  split_head "&page=" (replace "tokentx" "tokenbalance" workingEndpoint) ++ "&tag=latest".

(** The body of the [try] of lines 181-205: the new balance when it assigns
    one. *)
Definition currentBalance (w : World) (balanceUrl : string) : completion (option float) :=
  match fetch w balanceUrl with
  | Rejected e => Throw e
  | Resolved balanceResponse =>
      if ok balanceResponse then
        match payload balanceResponse with
        | Unreadable e => Throw e
        | Malformed message => Throw (ErrorObject message)
        | Parsed balanceData =>
            status <- get balanceData "status" ;;
            if strict_eq_string status "1" then
              result <- get balanceData "result" ;;
              wei <- parseInt (or_else result (JString "0")) ;;
              Normal (Some (wei / Math_pow 10 18)%float)
            else Normal None
        end
      else Normal None
  end.

(** Lines 180-209: the balance afterwards, and the URL requested if any.
    The working endpoint, when there is one, starts with [https://] and so
    is truthy. *)
Definition refine (w : World) (workingEndpoint : option string) (balance : float)
  : float * list string :=
  match workingEndpoint with
  | Some endpoint =>
      (match currentBalance w (balanceUrl endpoint) with
       | Normal (Some current) => current
       | Normal None => balance
       | Throw balanceError => balance
       end,
       [balanceUrl endpoint])
  | None => (balance, [])
  end.

(** *** Response shaping (lines 211-239) *)

(** The callback of line 215. *)
Definition reportTx (tx : js_value) : completion js_value :=
  hash <- get tx "hash" ;;
  from <- get tx "from" ;;
  to <- get tx "to" ;;
  amount <- txAmount tx ;;
  time <- txTime tx ;;
  timestamp <- toISOString time ;;
  confirmations <- get tx "confirmations" ;;
  Normal (JObject
    [ ("hash", hash);
      ("from", from);
      ("to", to);
      ("value", JNumber amount);
      ("timestamp", JString timestamp);
      ("confirmations", confirmations) ]).

(** Lines 214-223: [data.result ? data.result.slice(0, 10).map(...) : []].
    Only an array has a [slice] whose result has a [map]: a string has
    [slice] but its result no [map], and the other truthy values have no
    [slice]. *)
Definition transactions (result : js_value) : completion js_value :=
  if truthy result then
    match result with
    | JArray items =>
        txs <- mapM_from (fun _ tx => reportTx tx) 0%nat (firstn 10 items) ;;
        Normal (JArray txs)
    | JString _ => Throw (not_a_function "data.result.slice(...).map")
    | _ => Throw (not_a_function "data.result.slice")
    end
  else Normal (JArray []).

Definition report (address expectedAmount etherscanApiKey : string)
    (workingEndpoint : option string) (verdict : Verdict) (balance : float)
    (transactions apiStatus : js_value) : HttpResponse :=
  {| http_status := 200;
     json := JObject
       [ ("confirmed", JBool (confirmed verdict));
         ("balance", JNumber balance);
         ("transactions", transactions);
         ("apiStatus", apiStatus);
         ("debugInfo", JObject
            [ ("workingEndpoint",
                match workingEndpoint with
                | Some endpoint => JString (replace etherscanApiKey "***" endpoint)
                | None => JUndefined
                end);
              ("matchingTransactions",
                JArray (map processed_value (matchingTransactions verdict)));
              ("expectedAmount", JNumber (parseFloat expectedAmount));
              ("address", JString address);
              ("usdtContract", JString usdtContract);
              ("network", JString "BSC");
              ("environment", JString "Vercel Serverless");
              ("serverlessOptimized", JBool true) ]) ] |}.

(** *** Top-level failure (lines 240-280) *)

Definition errorMessage (error : thrown) : string :=
  match error with
  | ErrorObject message => message
  | NotAnError => "Unknown error"
  end.

Definition isNetworkError (error : thrown) : bool :=
  match error with
  | ErrorObject message =>
      includes message "fetch failed" || includes message "ENOTFOUND"
      || includes message "timeout"
  | NotAnError => false
  end.

Definition request_failed (error : thrown) : HttpResponse :=
  {| http_status := 200;
     json := JObject
       [ ("confirmed", JBool false);
         ("balance", JNumber 0);
         ("transactions", JArray []);
         ("manualMode", JBool (isNetworkError error));
         ("apiStatus", JObject
            [ ("status", JString "0");
              ("message", JString (if isNetworkError error
                                   then "Network connectivity issue in serverless environment"
                                   else "Request failed"));
              ("result", JString (errorMessage error)) ]);
         ("debugInfo", JObject
            [ ("error", JString (errorMessage error));
              ("isNetworkError", JBool (isNetworkError error));
              ("environment", JString "Vercel Serverless");
              ("manualVerificationUrl", JString
                 "https://bscscan.com/token/0x55d398326f99059fF775485246999027B3197955?a=0xa85BAC140e091e5b74c235F666e8C9849a7BBA55");
              ("fallbackInstructions", JArray
                 [ JString "Network restrictions in serverless environment detected";
                   JString "Use manual verification with transaction hash";
                   JString "Check BSCScan directly for recent transactions";
                   JString "Copy transaction hash and verify manually" ]) ]) ] |}.

(** *** The handler *)

(** Lines 130-239, once the loop has left a truthy [data]: how the [try]
    block completes, and the URL of the balance request when it is reached. *)
Definition respond (w : World) (address expectedAmount : string) (fetched : Fetched)
  : completion HttpResponse * list string :=
  match (status <- apiStatus (data fetched) ;;
         verdict <- judge w address expectedAmount (data fetched) ;;
         Normal (status, verdict)) with
  | Throw error => (Throw error, [])
  | Normal (status, verdict) =>
      let '(balance, calls) := refine w (workingEndpoint fetched) (balance verdict) in
      (result <- get (data fetched) "result" ;;
       txs <- transactions result ;;
       Normal (report address expectedAmount (etherscanApiKey w)
                      (workingEndpoint fetched) verdict balance txs status),
       calls)
  end.

(** Lines 24-239 for present parameters: how the [try] block completes and
    the URLs requested. *)
Definition check (w : World) (address expectedAmount : string)
  : completion HttpResponse * list string :=
  let fetched :=
    tryEndpoints w (apiEndpoints address (etherscanApiKey w)) None [] in
  if truthy (data fetched) then
    let '(completed, calls) := respond w address expectedAmount fetched in
    (completed, (requested fetched ++ calls)%list)
  else
    (Normal (manual_mode address (etherscanApiKey w) (lastError fetched)),
     requested fetched).

Definition GET (w : World) (request : Request) : Outcome :=
  match address_param request, amount_param request with
  | Some address, Some expectedAmount =>
      if missing (Some address) || missing (Some expectedAmount) then
        {| reply := missing_parameters (Some address) (Some expectedAmount);
           outbound := [] |}
      else
        let '(completed, calls) := check w address expectedAmount in
        {| reply := match completed with
                    | Normal response => response
                    | Throw error => request_failed error
                    end;
           outbound := calls |}
  | address, expectedAmount =>
      {| reply := missing_parameters address expectedAmount; outbound := [] |}
  end.

(* ================================================================= *)
(** ** Notions the properties are stated with *)

(** A field of a JSON object. *)
Definition field (name : string) (v : js_value) : js_value :=
  match v with
  | JObject props => lookup name props
  | _ => JUndefined
  end.

(** The body an endpoint yields when its request succeeds, the status is
    a success and the text parses. *)
Definition parses (w : World) (url : string) : option js_value :=
  match fetch w url with
  | Resolved response =>
      if ok response then
        match payload response with
        | Parsed v => Some v
        | _ => None
        end
      else None
  | Rejected _ => None
  end.

(** The first endpoint, in order, whose body parses, with that body. *)
Fixpoint first_parsed (w : World) (urls : list string) : option (string * js_value) :=
  match urls with
  | [] => None
  | url :: rest =>
      match parses w url with
      | Some v => Some (url, v)
      | None => first_parsed w rest
      end
  end.

(** A transaction the handler can normalise without a runtime error: its
    [value], [tokenDecimal] and [timeStamp] convert to strings, the
    [timeStamp] gives a valid date, and [to] is a string. *)
Definition normalisable (tx : js_value) : bool :=
  match txAmount tx, txTime tx, get tx "to" with
  | Normal _, Normal (Some _), Normal (JString _) => true
  | _, _, _ => false
  end.

(** A body the flow after the loop goes through without a runtime error:
    its [result] is falsy, or an array of normalisable transactions. *)
Definition processable (body : js_value) : bool :=
  match field "result" body with
  | JArray items => forallb normalisable items
  | result => negb (truthy result)
  end.

(** The transaction of index [i] is a matching transaction: received less
    than 3600 s before the clock reading of its normalisation, sent to the
    requested address up to case, and of the requested amount up to
    0.001. *)
Definition Matching (w : World) (address expectedAmount : string) (i : nat) (tx : js_value)
  : Prop :=
  exists amount t recipient,
    txAmount tx = Normal amount
    /\ txTime tx = Normal (Some t)
    /\ get tx "to" = Normal (JString recipient)
    /\ Date_now w i - t < 3600000
    /\ toLowerCase recipient = toLowerCase address
    /\ PrimFloat.ltb (PrimFloat.abs (amount - parseFloat expectedAmount)) 0.001 = true.

(** Whether the [to] field of a transaction is the requested address up
    to case. *)
Definition to_address (address : string) (tx : js_value) : bool :=
  match get tx "to" with
  | Normal (JString recipient) => String.eqb (toLowerCase recipient) (toLowerCase address)
  | _ => false
  end.

(** The [value] of a transaction divided by 10 to its [tokenDecimal]
    ([NaN] where the division is not reached). *)
Definition amount_of (tx : js_value) : float :=
  match txAmount tx with
  | Normal amount => amount
  | Throw _ => nan
  end.

(** The amount a transaction lists, read off its fields alone: the integer
    its [value] spells over 10 to the integer its [tokenDecimal] spells,
    each field printed as a string first ([NaN] where a field cannot be
    printed). *)
Definition listed_amount (tx : js_value) : float :=
  match ToString (field "value" tx), ToString (field "tokenDecimal" tx) with
  | Normal units, Normal decimals =>
      (parseInt_string units / Math_pow 10 (parseInt_string decimals))%float
  | _, _ => nan
  end.

(** The sum of a list of numbers, from 0, left to right. *)
Definition sum (amounts : list float) : float :=
  fold_left PrimFloat.add amounts 0%float.

(** [out] is the transaction [tx] reshaped for the report: its hash,
    sender, recipient, normalised value, ISO timestamp and confirmations,
    and nothing else. *)
Definition reshaped (tx out : js_value) : Prop :=
  exists amount t,
    txAmount tx = Normal amount
    /\ txTime tx = Normal (Some t)
    /\ out = JObject
               [ ("hash", field "hash" tx);
                 ("from", field "from" tx);
                 ("to", field "to" tx);
                 ("value", JNumber amount);
                 ("timestamp", JString (iso_string t));
                 ("confirmations", field "confirmations" tx) ].

(** A thrown error whose message mentions one of the connectivity and
    timeout keywords. *)
Definition mentions_network (error : thrown) : Prop :=
  exists message,
    error = ErrorObject message
    /\ (includes message "fetch failed" = true
        \/ includes message "ENOTFOUND" = true
        \/ includes message "timeout" = true).

(* ================================================================= *)
(** ** An engine and inputs for the examples *)

(** [Math.pow] of the examples: the correctly rounded power of ten at an
    integral exponent, which is what V8 returns wherever that power is a
    double (as 10^18 is); no example raises another base or to another
    exponent. *)
Definition Math_pow_ref (base exponent : float) : float :=
  if PrimFloat.eqb base 10 && PrimFloat.is_finite exponent
     && PrimFloat.eqb exponent (Z2F (float_trunc exponent))
  then decimal_to_float false 1 (float_trunc exponent)
  else nan.

(** [Number.prototype.toString] of the examples: exact on the integers of
    magnitude below 2^53; no example prints a number. *)
Definition Number_toString_ref (x : float) : string :=
  if PrimFloat.is_nan x then "NaN"
  else (if PrimFloat.ltb x 0 then "-" else "") ++ decimal (Z.to_N (Z.abs (float_trunc x))).

Definition payer : string := "0x1111111111111111111111111111111111111111".
Definition payee : string := "0xAbC0000000000000000000000000000000000001".

(** A request for 25.5 USDT paid to [payee]. *)
Definition request_25_5 : Request :=
  {| address_param := Some payee; amount_param := Some "25.5" |}.

(** A transfer of 25.5 USDT to [payee] at 1700000000 s, as the explorer
    lists it. *)
Definition transfer_25_5 : js_value :=
  JObject
    [ ("blockNumber", JString "33500000");
      ("timeStamp", JString "1700000000");
      ("hash", JString "0xfeed");
      ("from", JString payer);
      ("to", JString "0xabc0000000000000000000000000000000000001");
      ("value", JString "25500000000000000000");
      ("tokenDecimal", JString "18");
      ("confirmations", JString "12") ].

(** A transfer of 4 USDT from [payee] back to [payer], an hour earlier. *)
Definition transfer_to_payer : js_value :=
  JObject
    [ ("blockNumber", JString "33498800");
      ("timeStamp", JString "1699996400");
      ("hash", JString "0xf00d");
      ("from", JString "0xabc0000000000000000000000000000000000001");
      ("to", JString payer);
      ("value", JString "4000000000000000000");
      ("tokenDecimal", JString "18");
      ("confirmations", JString "1212") ].

(** A transfer the explorer lists without its recipient. *)
Definition transfer_without_to : js_value :=
  JObject
    [ ("blockNumber", JString "33500001");
      ("timeStamp", JString "1700000003");
      ("hash", JString "0xbeef");
      ("from", JString payer);
      ("value", JString "1000000000000000000");
      ("tokenDecimal", JString "18");
      ("confirmations", JString "11") ].

(** A transfer the explorer lists without its time. *)
Definition transfer_without_timeStamp : js_value :=
  JObject
    [ ("blockNumber", JString "33500002");
      ("hash", JString "0xcafe");
      ("from", JString payer);
      ("to", JString "0xabc0000000000000000000000000000000000001");
      ("value", JString "1000000000000000000");
      ("tokenDecimal", JString "18");
      ("confirmations", JString "10") ].

Definition explorer_body (status message : string) (result : js_value) : js_value :=
  JObject [ ("status", JString status); ("message", JString message); ("result", result) ].

Definition answers (v : js_value) : fetch_result :=
  Resolved {| status := 200; statusText := "OK"; payload := Parsed v |}.

Definition down : fetch_result :=
  Rejected (ErrorObject "fetch failed").

(** A network: what the transfer query of the first host, the transfer
    query of the second host, and a balance query give. *)
Definition network (first second balance : fetch_result) (url : string) : fetch_result :=
  if String.prefix "https://api.bscscan.com/api?module=account&action=tokentx" url then first
  else if String.prefix "https://api-bsc.etherscan.io/api?module=account&action=tokentx" url
  then second
  else balance.

(** A world with no key in the environment, whose clock stands at [now]. *)
Definition world (now : Z) (first second balance : fetch_result) : World :=
  {| BSCSCAN_API_KEY := None;
     fetch := network first second balance;
     Date_now := fun _ => now |}.

(** The first host lists the given transfers. *)
Definition listing (txs : list js_value) : fetch_result :=
  answers (explorer_body "1" "OK" (JArray txs)).

(** The transfer query of the first host for [payee], under the default
    key. *)
Definition first_endpoint : string :=
  "https://api.bscscan.com/api?module=account&action=tokentx&contractaddress=0x55d398326f99059fF775485246999027B3197955&address=0xAbC0000000000000000000000000000000000001&page=1&offset=20&sort=desc&apikey=YMURRBM3WND7ZIJM8S1C5HEQXQK6W4S45B".

(** The balance query answers 2.5 USDT. *)
Definition balance_2_5 : fetch_result :=
  answers (explorer_body "1" "OK" (JString "2500000000000000000")).

(** The balance query of the first host for [payee], as the handler
    builds it. *)
Definition first_balance_query : string :=
  "https://api.bscscan.com/api?module=account&action=tokenbalance&contractaddress=0x55d398326f99059fF775485246999027B3197955&address=0xAbC0000000000000000000000000000000000001&tag=latest".

(** [transfer_25_5], reshaped for the report. *)
Definition transfer_25_5_reshaped : js_value :=
  JObject
    [ ("hash", JString "0xfeed");
      ("from", JString payer);
      ("to", JString "0xabc0000000000000000000000000000000000001");
      ("value", JNumber 25.5);
      ("timestamp", JString "2023-11-14T22:13:20.000Z");
      ("confirmations", JString "12") ].

(* ================================================================= *)
(** ** Notions of the further properties *)

(** A string without its last character. *)
Fixpoint but_last (s : string) : string :=
  match s with
  | EmptyString => EmptyString
  | String c EmptyString => EmptyString
  | String c s' => String c (but_last s')
  end.

(** What stands before the API key in the transfer query of a host. *)
Definition endpoint_stem (host address : string) : string :=
  "https://" ++ host ++ "/api?module=account&action=tokentx&contractaddress="
    ++ usdtContract ++ "&address=" ++ address ++ "&page=1&offset=20&sort=desc&apikey=".

(** The balance query of a host for an address: no paging, no key. *)
Definition balance_query (host address : string) : string :=
  "https://" ++ host ++ "/api?module=account&action=tokenbalance&contractaddress="
    ++ usdtContract ++ "&address=" ++ address ++ "&tag=latest".

(** An entry of [debugInfo.matchingTransactions] carries its three flags,
    all true. *)
Definition flagged (tx : js_value) : Prop :=
  field "isRecent" tx = JBool true
  /\ field "isToAddress" tx = JBool true
  /\ field "isExpectedAmount" tx = JBool true.

(** The errors the [try] block can throw outside the inner [try]
    statements: a read of a property of [null] or [undefined], a call of
    what is no function, a conversion of an object, an invalid date. *)
Inductive runtime_error : thrown -> Prop :=
| read_error (base name : string) :
    In base ["undefined"; "null"] ->
    In name ["status"; "message"; "result"; "value"; "tokenDecimal"; "timeStamp"; "to";
             "hash"; "from"; "confirmations"; "blockNumber"; "toLowerCase"] ->
    runtime_error (cannot_read base name)
| call_error (expr : string) :
    In expr ["tx.to.toLowerCase"; "data.result.slice(...).map"; "data.result.slice"] ->
    runtime_error (not_a_function expr)
| conversion_error : runtime_error cannot_convert
| date_error : runtime_error invalid_time.

(** Inputs of the further examples: a host that answers 503, and the
    explorer's reply to a caller over its rate limit. *)
Definition unavailable : fetch_result :=
  Resolved {| status := 503; statusText := "Service Unavailable";
              payload := Malformed "Unexpected token < in JSON at position 0" |}.

Definition rate_limited : js_value :=
  explorer_body "0" "NOTOK" (JString "Max rate limit reached").

Definition second_endpoint : string :=
  "https://api-bsc.etherscan.io/api?module=account&action=tokentx&contractaddress=0x55d398326f99059fF775485246999027B3197955&address=0xAbC0000000000000000000000000000000000001&page=1&offset=20&sort=desc&apikey=YMURRBM3WND7ZIJM8S1C5HEQXQK6W4S45B".
(* ================================================================= *)
(** * Properties *)

(** ** Completions and traversals *)

Lemma bind_normal {A B : Type} (c : completion A) (k : A -> completion B) (b : B) :
  bind c k = Normal b -> exists a, c = Normal a /\ k a = Normal b.
Proof.
  destruct c as [a | e]; simpl; intros H.
  - exists a. split; [reflexivity | exact H].
  - discriminate H.
Qed.

(** Takes a hypothesis [bind c k = Normal b] apart, repeatedly. *)
Ltac invert_binds :=
  repeat match goal with
         | H : bind _ _ = Normal _ |- _ =>
             let a := fresh "a" in
             let Ha := fresh "Ha" in
             apply bind_normal in H; destruct H as (a & Ha & H)
         | H : Normal _ = Normal _ |- _ => injection H as H
         end.

(** A traversal that completes has visited every element, in order. *)
Lemma mapM_from_nth {A B : Type} (f : nat -> A -> completion B) (l : list A) :
  forall (i : nat) (bs : list B),
    mapM_from f i l = Normal bs ->
    length bs = length l
    /\ forall k a, nth_error l k = Some a ->
                   exists b, nth_error bs k = Some b /\ f (i + k)%nat a = Normal b.
Proof.
  induction l as [| x l IH]; simpl; intros i bs H.
  - injection H as <-. split; [reflexivity |].
    intros [| k] a Hk; discriminate Hk.
  - invert_binds. subst bs.
    destruct (IH _ _ Ha0) as [Hlen Hnth].
    split; [simpl; now rewrite Hlen |].
    intros [| k] b Hk; simpl in Hk.
    + injection Hk as <-. exists a. rewrite Nat.add_0_r. now split.
    + destruct (Hnth k b Hk) as (b' & Hb' & Hf).
      exists b'. split; [exact Hb' |].
      now rewrite Nat.add_succ_r.
Qed.

(** Conversely every element of the result comes from the element of the
    same index. *)
Lemma mapM_from_nth_inv {A B : Type} (f : nat -> A -> completion B) (l : list A) :
  forall (i : nat) (bs : list B),
    mapM_from f i l = Normal bs ->
    forall k b, nth_error bs k = Some b ->
                exists a, nth_error l k = Some a /\ f (i + k)%nat a = Normal b.
Proof.
  intros i bs H k b Hk.
  destruct (mapM_from_nth f l i bs H) as [Hlen Hnth].
  destruct (nth_error l k) as [a |] eqn:Ha.
  - destruct (Hnth k a Ha) as (b' & Hb' & Hf).
    exists a. split; [reflexivity |]. congruence.
  - apply nth_error_None in Ha.
    assert (nth_error bs k <> None) as Hn by congruence.
    apply nth_error_Some in Hn. lia.
Qed.

(** A traversal completes when the callback does on every element. *)
Lemma mapM_from_total {A B : Type} (f : nat -> A -> completion B) (l : list A) :
  forall i : nat,
    (forall k a, nth_error l k = Some a -> is_normal (f (i + k)%nat a) = true) ->
    exists bs, mapM_from f i l = Normal bs.
Proof.
  induction l as [| x l IH]; simpl; intros i H.
  - now exists [].
  - pose proof (H 0%nat x eq_refl) as Hx. rewrite Nat.add_0_r in Hx.
    destruct (f i x) as [b | e]; [| discriminate Hx].
    destruct (IH (S i)) as [bs Hbs].
    + intros k a Hk. specialize (H (S k) a Hk).
      now rewrite Nat.add_succ_r in H.
    + exists (b :: bs). simpl. now rewrite Hbs.
Qed.

(** And throws when it does on some element. *)
Lemma mapM_from_throws {A B : Type} (f : nat -> A -> completion B) (l : list A) :
  forall i k a,
    nth_error l k = Some a ->
    is_normal (f (i + k)%nat a) = false ->
    is_normal (mapM_from f i l) = false.
Proof.
  induction l as [| x l IH]; intros i [| k] a Hk Hf; simpl in Hk; try discriminate Hk.
  - injection Hk as ->. rewrite Nat.add_0_r in Hf. simpl.
    destruct (f i a); [discriminate Hf | reflexivity].
  - simpl. destruct (f i x) as [b | e]; [| reflexivity]. simpl.
    rewrite Nat.add_succ_r in Hf.
    specialize (IH (S i) k a Hk Hf).
    destruct (mapM_from f (S i) l); [discriminate IH | reflexivity].
Qed.

Lemma forallb_nth {A : Type} (p : A -> bool) (l : list A) :
  forallb p l = true -> forall k a, nth_error l k = Some a -> p a = true.
Proof.
  intros H k a Hk. rewrite forallb_forall in H.
  apply H. eapply nth_error_In. exact Hk.
Qed.

Lemma forallb_false_nth {A : Type} (p : A -> bool) (l : list A) :
  forallb p l = false -> exists k a, nth_error l k = Some a /\ p a = false.
Proof.
  induction l as [| x l IH]; simpl; intros H; [discriminate H |].
  destruct (p x) eqn:Hx.
  - destruct (IH H) as (k & a & Hk & Ha). now exists (S k), a.
  - now exists 0%nat, x.
Qed.

Lemma filter_nonempty {A : Type} (p : A -> bool) (l : list A) :
  (0 <? length (filter p l))%nat = true <-> exists k a, nth_error l k = Some a /\ p a = true.
Proof.
  induction l as [| x l IH]; simpl.
  - split; [discriminate |]. intros ([| k] & a & Hk & _); discriminate Hk.
  - destruct (p x) eqn:Hx; simpl.
    + split; [| reflexivity]. intros _. now exists 0%nat, x.
    + rewrite IH. split.
      * intros (k & a & Hk & Ha). now exists (S k), a.
      * intros ([| k] & a & Hk & Ha); simpl in Hk.
        -- injection Hk as ->. congruence.
        -- now exists k, a.
Qed.

(** ** The endpoint loop *)

Lemma tryEndpoint_parses (w : World) (url : string) :
  match parses w url with
  | Some v => tryEndpoint w url = Succeeded v
  | None => exists error, tryEndpoint w url = Failed error
  end.
Proof.
  unfold parses, tryEndpoint.
  destruct (fetch w url) as [e | response]; [eauto |].
  destruct (ok response); [| eauto].
  destruct (payload response); eauto.
Qed.

(** The loop stops at the first endpoint whose body parses: that body and
    that endpoint are what it leaves, and the endpoints before it, and it,
    are what it requested.  With no such endpoint it requests them all and
    leaves [null]. *)
Lemma tryEndpoints_first_parsed (w : World) (urls : list string) :
  forall (error : option string) (log : list string),
    let fetched := tryEndpoints w urls error log in
    match first_parsed w urls with
    | Some (url, v) =>
        data fetched = v
        /\ workingEndpoint fetched = Some url
        /\ exists before after,
             urls = (before ++ url :: after)%list
             /\ requested fetched = (log ++ before ++ [url])%list
             /\ Forall (fun u => parses w u = None) before
    | None =>
        data fetched = JNull
        /\ workingEndpoint fetched = None
        /\ requested fetched = (log ++ urls)%list
        /\ (urls <> [] -> exists last, lastError fetched = Some last)
    end.
Proof.
  induction urls as [| url rest IH]; intros error log; simpl.
  - rewrite app_nil_r. repeat split. intros H. now contradiction H.
  - pose proof (tryEndpoint_parses w url) as Hurl.
    destruct (parses w url) as [v |] eqn:Hp.
    + rewrite Hurl. simpl. repeat split.
      exists [], rest. simpl. repeat split. constructor.
    + destruct Hurl as [failure ->].
      specialize (IH (Some failure) (log ++ [url])%list). simpl in IH.
      destruct (first_parsed w rest) as [[url' v'] |].
      * destruct IH as (Hd & Hw & before & after & -> & Hr & Hf).
        repeat split; [exact Hd | exact Hw |].
        exists (url :: before), after. simpl. repeat split.
        -- rewrite Hr. now rewrite <- app_assoc.
        -- now constructor.
      * destruct IH as (Hd & Hw & Hr & Hl).
        repeat split; [exact Hd | exact Hw | |].
        -- rewrite Hr. now rewrite <- app_assoc.
        -- intros _. destruct rest as [| url' rest'].
           ++ simpl. now exists failure.
           ++ apply Hl. discriminate.
Qed.

(** ** Normalising one transaction *)

Lemma call_toLowerCase_normal (expr : string) (v : js_value) (s : string) :
  call_toLowerCase expr v = Normal s -> exists r, v = JString r /\ s = toLowerCase r.
Proof.
  destruct v; simpl; intros H; try discriminate H.
  injection H as <-. eauto.
Qed.

Lemma toISOString_normal (date : option Z) (s : string) :
  toISOString date = Normal s -> exists t, date = Some t /\ s = iso_string t.
Proof.
  destruct date as [t |]; simpl; intros H; [| discriminate H].
  injection H as <-. eauto.
Qed.

(** What the callback of [map] computes when it completes. *)
Lemma processTx_normal (address expectedAmount : string) (now : Z) (tx : js_value)
    (p : Processed) :
  processTx address expectedAmount now tx = Normal p ->
  exists amount t recipient,
    txAmount tx = Normal amount
    /\ txTime tx = Normal (Some t)
    /\ get tx "to" = Normal (JString recipient)
    /\ value p = amount
    /\ isRecent p = (now - t <? 3600000)
    /\ isToAddress p = String.eqb (toLowerCase recipient) (toLowerCase address)
    /\ isExpectedAmount p = expected amount expectedAmount.
Proof.
  unfold processTx. intros H. invert_binds.
  apply call_toLowerCase_normal in Ha2. destruct Ha2 as (r & -> & ->).
  apply toISOString_normal in Ha5. destruct Ha5 as (t & -> & ->).
  exists a, t, r. subst p. simpl. repeat split; assumption.
Qed.

Lemma txAmount_not_nullish (tx : js_value) :
  is_normal (txAmount tx) = true -> forall name, is_normal (get tx name) = true.
Proof.
  destruct tx; simpl; intros H name; try reflexivity; discriminate H.
Qed.

(** The callback completes exactly on the transactions that are
    [normalisable]. *)
Lemma processTx_is_normal (address expectedAmount : string) (now : Z) (tx : js_value) :
  is_normal (processTx address expectedAmount now tx) = normalisable tx.
Proof.
  unfold processTx, normalisable.
  pose proof (txAmount_not_nullish tx) as Hget.
  destruct (txAmount tx) as [amount | e]; simpl; [| reflexivity].
  specialize (Hget eq_refl).
  destruct (txTime tx) as [[t |] | e]; simpl.
  - pose proof (Hget "to") as Hto. pose proof (Hget "hash") as Hh.
    pose proof (Hget "from") as Hf. pose proof (Hget "confirmations") as Hc.
    pose proof (Hget "blockNumber") as Hb.
    destruct (get tx "to") as [recipient | e]; [| discriminate Hto]. simpl.
    destruct recipient; simpl; try reflexivity.
    destruct (get tx "hash"); [| discriminate Hh]. simpl.
    destruct (get tx "from"); [| discriminate Hf]. simpl.
    destruct (get tx "confirmations"); [| discriminate Hc]. simpl.
    destruct (get tx "blockNumber"); [| discriminate Hb]. reflexivity.
  - pose proof (Hget "to") as Hto. pose proof (Hget "hash") as Hh.
    pose proof (Hget "from") as Hf.
    destruct (get tx "to") as [recipient | e]; [| discriminate Hto]. simpl.
    destruct (call_toLowerCase "tx.to" recipient); simpl; [| reflexivity].
    destruct (get tx "hash"); [| discriminate Hh]. simpl.
    destruct (get tx "from"); [| discriminate Hf]. reflexivity.
  - destruct (get tx "to") as [[] |]; reflexivity.
Qed.

(** The callback of the response shaping completes on them too. *)
Lemma reportTx_normalisable (tx : js_value) :
  normalisable tx = true -> is_normal (reportTx tx) = true.
Proof.
  unfold reportTx, normalisable.
  pose proof (txAmount_not_nullish tx) as Hget.
  destruct (txAmount tx) as [amount | e]; [| discriminate].
  specialize (Hget eq_refl).
  destruct (txTime tx) as [[t |] | e]; try discriminate.
  intros _.
  pose proof (Hget "to") as Hto. pose proof (Hget "hash") as Hh.
  pose proof (Hget "from") as Hf. pose proof (Hget "confirmations") as Hc.
  destruct (get tx "hash"); [| discriminate Hh].
  destruct (get tx "from"); [| discriminate Hf].
  destruct (get tx "to"); [| discriminate Hto].
  destruct (get tx "confirmations"); [| discriminate Hc].
  reflexivity.
Qed.

(** A transaction as the explorer lists it, with string fields and a time
    in the range of [Date], is normalisable. *)
Lemma explorer_transaction_normalisable (props : list (string * js_value))
    (value decimals seconds recipient : string) (t : Z) :
  lookup "value" props = JString value ->
  lookup "tokenDecimal" props = JString decimals ->
  lookup "timeStamp" props = JString seconds ->
  lookup "to" props = JString recipient ->
  Date_of (parseInt_string seconds * 1000)%float = Some t ->
  normalisable (JObject props) = true.
Proof.
  intros Hv Hd Hs Hto Ht.
  unfold normalisable, txAmount, txTime, parseInt. simpl.
  now rewrite Hv, Hd, Hs, Hto; simpl; rewrite Ht.
Qed.

(** ** The flow after the loop *)

Lemma get_truthy (v : js_value) (name : string) :
  truthy v = true -> get v name = Normal (field name v).
Proof.
  destruct v; simpl; intros H; try reflexivity; discriminate H.
Qed.

Lemma field_truthy (name : string) (body : js_value) :
  truthy (field name body) = true -> truthy body = true.
Proof.
  destruct body; simpl; intros H; try reflexivity; discriminate H.
Qed.

Lemma apiStatus_truthy (data : js_value) :
  truthy data = true ->
  apiStatus data
  = Normal (JObject
      [ ("status", or_else (field "status" data) (JString "0"));
        ("message", or_else (field "message" data) (JString "Unknown error"));
        ("result", or_else (field "result" data) JNull) ]).
Proof.
  intros H. unfold apiStatus. now rewrite !get_truthy by exact H.
Qed.

Lemma judge_truthy (w : World) (address expectedAmount : string) (data : js_value) :
  truthy data = true ->
  judge w address expectedAmount data
  = if strict_eq_string (field "status" data) "1" && truthy (field "result" data)
       && isArray (field "result" data)
    then
      txs <- processedTxs w address expectedAmount (elements (field "result" data)) ;;
      Normal {| confirmed := (0 <? length (matching txs))%nat;
                matchingTransactions := matching txs;
                balance := incoming txs |}
    else Normal {| confirmed := false; matchingTransactions := []; balance := 0 |}.
Proof.
  intros H. unfold judge. now rewrite !get_truthy by exact H.
Qed.

(** The flow after the loop, for a truthy body: it stops at the first throw
    of the processing, and otherwise goes through the balance refinement to
    the shaping of the report. *)
Lemma respond_truthy (w : World) (address expectedAmount : string) (fetched : Fetched) :
  truthy (data fetched) = true ->
  respond w address expectedAmount fetched
  = match judge w address expectedAmount (data fetched) with
    | Throw error => (Throw error, [])
    | Normal verdict =>
        (txs <- transactions (field "result" (data fetched)) ;;
         Normal (report address expectedAmount (etherscanApiKey w)
                   (workingEndpoint fetched) verdict
                   (fst (refine w (workingEndpoint fetched) (balance verdict))) txs
                   (JObject
                      [ ("status", or_else (field "status" (data fetched)) (JString "0"));
                        ("message",
                          or_else (field "message" (data fetched)) (JString "Unknown error"));
                        ("result", or_else (field "result" (data fetched)) JNull) ])),
         snd (refine w (workingEndpoint fetched) (balance verdict)))
    end.
Proof.
  intros H. unfold respond.
  rewrite apiStatus_truthy by exact H. simpl.
  destruct (judge w address expectedAmount (data fetched)) as [verdict | error]; simpl;
    [| reflexivity].
  destruct (refine w (workingEndpoint fetched) (balance verdict)) as [current calls].
  simpl. now rewrite get_truthy by exact H.
Qed.

(** With both parameters present the handler is the [try] block under the
    top-level [catch]. *)
Lemma GET_present (w : World) (address expectedAmount : string) :
  address <> "" -> expectedAmount <> "" ->
  GET w {| address_param := Some address; amount_param := Some expectedAmount |}
  = {| reply := match fst (check w address expectedAmount) with
                | Normal response => response
                | Throw error => request_failed error
                end;
       outbound := snd (check w address expectedAmount) |}.
Proof.
  intros Ha He. unfold GET. simpl.
  apply String.eqb_neq in Ha. apply String.eqb_neq in He. rewrite Ha, He. simpl.
  now destruct (check w address expectedAmount).
Qed.

(** When some endpoint's body parses to a truthy value, the [try] block is
    the flow after the loop on that body and that endpoint. *)
Lemma check_first_parsed (w : World) (address expectedAmount endpoint : string)
    (body : js_value) :
  first_parsed w (apiEndpoints address (etherscanApiKey w)) = Some (endpoint, body) ->
  truthy body = true ->
  exists fetched,
    data fetched = body
    /\ workingEndpoint fetched = Some endpoint
    /\ (exists before after,
          apiEndpoints address (etherscanApiKey w) = (before ++ endpoint :: after)%list
          /\ requested fetched = (before ++ [endpoint])%list)
    /\ check w address expectedAmount
       = (fst (respond w address expectedAmount fetched),
          (requested fetched ++ snd (respond w address expectedAmount fetched))%list).
Proof.
  intros Hfirst Htruthy.
  pose proof (tryEndpoints_first_parsed w (apiEndpoints address (etherscanApiKey w)) None [])
    as Hloop.
  cbv zeta in Hloop. rewrite Hfirst in Hloop.
  destruct Hloop as (Hd & Hw & before & after & Hurls & Hr & _).
  eexists. split; [exact Hd |]. split; [exact Hw |]. split.
  - exists before, after. split; [exact Hurls | exact Hr].
  - unfold check. rewrite Hd, Htruthy.
    now destruct (respond w address expectedAmount _).
Qed.

(** When no endpoint's body parses, the [try] block returns the manual
    mode report. *)
Lemma check_none_parsed (w : World) (address expectedAmount : string) :
  first_parsed w (apiEndpoints address (etherscanApiKey w)) = None ->
  exists last,
    check w address expectedAmount
    = (Normal (manual_mode address (etherscanApiKey w) (Some last)),
       apiEndpoints address (etherscanApiKey w)).
Proof.
  intros Hfirst.
  pose proof (tryEndpoints_first_parsed w (apiEndpoints address (etherscanApiKey w)) None [])
    as Hloop.
  cbv zeta in Hloop. rewrite Hfirst in Hloop.
  destruct Hloop as (Hd & Hw & Hr & Hl).
  destruct Hl as [last Hlast]; [discriminate |].
  exists last. unfold check. rewrite Hd. cbn [truthy]. now rewrite Hlast, Hr.
Qed.

(** The fields of the shaped report. *)
Lemma report_fields (address expectedAmount key : string) (endpoint : option string)
    (verdict : Verdict) (current : float) (txs status : js_value) :
  let response := report address expectedAmount key endpoint verdict current txs status in
  http_status response = 200%N
  /\ field "confirmed" (json response) = JBool (confirmed verdict)
  /\ field "balance" (json response) = JNumber current
  /\ field "transactions" (json response) = txs
  /\ field "apiStatus" (json response) = status.
Proof.
  repeat split.
Qed.

(** ** Processing a listing *)

Lemma processedTxs_normalisable (w : World) (address expectedAmount : string)
    (items : list js_value) :
  forallb normalisable items = true ->
  exists txs, processedTxs w address expectedAmount items = Normal txs.
Proof.
  intros H. apply mapM_from_total. intros k tx Hk.
  rewrite processTx_is_normal. exact (forallb_nth _ _ H k tx Hk).
Qed.

Lemma processedTxs_not_normalisable (w : World) (address expectedAmount : string)
    (items : list js_value) :
  forallb normalisable items = false ->
  exists error, processedTxs w address expectedAmount items = Throw error.
Proof.
  intros H. apply forallb_false_nth in H. destruct H as (k & tx & Hk & Hn).
  assert (is_normal (processedTxs w address expectedAmount items) = false) as Hthrow.
  { unfold processedTxs. eapply mapM_from_throws; [exact Hk |].
    now rewrite processTx_is_normal. }
  destruct (processedTxs w address expectedAmount items) as [txs | error];
    [discriminate Hthrow | eauto].
Qed.

Lemma transactions_normalisable (items : list js_value) :
  forallb normalisable items = true ->
  exists outs,
    mapM_from (fun _ tx => reportTx tx) 0%nat (firstn 10 items) = Normal outs
    /\ transactions (JArray items) = Normal (JArray outs).
Proof.
  intros H.
  destruct (mapM_from_total (fun (_ : nat) tx => reportTx tx) (firstn 10 items) 0%nat)
    as [outs Houts].
  - intros k tx Hk. apply reportTx_normalisable.
    rewrite nth_error_firstn in Hk.
    destruct (Nat.ltb k 10); [| discriminate Hk].
    exact (forallb_nth _ _ H k tx Hk).
  - exists outs. split; [exact Houts |].
    unfold transactions. simpl truthy. cbv iota. now rewrite Houts.
Qed.

(** Line 170: some processed transaction passes the filter exactly when
    some transaction of the listing is a matching transaction. *)
Lemma matching_nonempty (w : World) (address expectedAmount : string)
    (items : list js_value) (txs : list Processed) :
  processedTxs w address expectedAmount items = Normal txs ->
  (0 <? length (matching txs))%nat = true
  <-> exists i tx, nth_error items i = Some tx /\ Matching w address expectedAmount i tx.
Proof.
  intros Htxs. unfold matching. rewrite filter_nonempty. split.
  - intros (k & p & Hk & Hp).
    destruct (mapM_from_nth_inv _ _ _ _ Htxs k p Hk) as (tx & Htx & Hproc).
    simpl in Hproc. apply processTx_normal in Hproc.
    destruct Hproc as (amount & t & recipient & Ha & Ht & Hto & _ & Hr & Hi & He).
    apply andb_prop in Hp. destruct Hp as [Hp Hexp].
    apply andb_prop in Hp. destruct Hp as [Hrec Haddr].
    exists k, tx. split; [exact Htx |].
    exists amount, t, recipient. repeat split; try assumption.
    + rewrite Hr in Hrec. now apply Z.ltb_lt.
    + rewrite Hi in Haddr. now apply String.eqb_eq.
    + rewrite He in Hexp. exact Hexp.
  - intros (k & tx & Hk & amount & t & recipient & Ha & Ht & Hto & Hr & Hi & He).
    destruct (mapM_from_nth _ _ _ _ Htxs) as [_ Hnth].
    destruct (Hnth k tx Hk) as (p & Hp & Hproc).
    simpl in Hproc. apply processTx_normal in Hproc.
    destruct Hproc as (amount' & t' & recipient' & Ha' & Ht' & Hto' & _ & Hr' & Hi' & He').
    rewrite Ha in Ha'. injection Ha' as <-.
    rewrite Ht in Ht'. injection Ht' as <-.
    rewrite Hto in Hto'. injection Hto' as <-.
    exists k, p. split; [exact Hp |].
    rewrite Hr', Hi', He'. unfold expected. rewrite He, Hi.
    apply Z.ltb_lt in Hr. rewrite Hr. now rewrite String.eqb_refl.
Qed.

(** A body that lists transfers: status "1" and an array result. *)
Lemma judge_listing (w : World) (address expectedAmount : string) (body : js_value)
    (items : list js_value) :
  field "status" body = JString "1" ->
  field "result" body = JArray items ->
  judge w address expectedAmount body
  = (txs <- processedTxs w address expectedAmount items ;;
     Normal {| confirmed := (0 <? length (matching txs))%nat;
               matchingTransactions := matching txs;
               balance := incoming txs |}).
Proof.
  intros Hs Hr.
  assert (truthy body = true) as Ht by (apply (field_truthy "status"); now rewrite Hs).
  rewrite judge_truthy by exact Ht. now rewrite Hs, Hr.
Qed.

(** Any other body is judged without looking at transactions. *)
Lemma judge_no_listing (w : World) (address expectedAmount : string) (body : js_value) :
  truthy body = true ->
  strict_eq_string (field "status" body) "1" && isArray (field "result" body) = false ->
  judge w address expectedAmount body
  = Normal {| confirmed := false; matchingTransactions := []; balance := 0 |}.
Proof.
  intros Ht Hc. rewrite judge_truthy by exact Ht.
  destruct (strict_eq_string (field "status" body) "1"); simpl in *; [| reflexivity].
  rewrite Hc. now rewrite andb_false_r.
Qed.

Lemma judge_processable (w : World) (address expectedAmount : string) (body : js_value) :
  truthy body = true -> processable body = true ->
  exists verdict, judge w address expectedAmount body = Normal verdict.
Proof.
  intros Ht Hp.
  destruct (strict_eq_string (field "status" body) "1" && isArray (field "result" body))
    eqn:Hc.
  - apply andb_prop in Hc. destruct Hc as [Hs Ha].
    unfold processable in Hp.
    destruct (field "status" body) as [| | | | s | |] eqn:Hstatus; try discriminate Hs.
    apply String.eqb_eq in Hs. subst s.
    destruct (field "result" body) as [| | | | | items |] eqn:Hresult; try discriminate Ha.
    rewrite (judge_listing w address expectedAmount body items Hstatus Hresult).
    destruct (processedTxs_normalisable w address expectedAmount items Hp) as [txs ->].
    simpl. eauto.
  - rewrite judge_no_listing by assumption. eauto.
Qed.

Lemma transactions_processable (body : js_value) :
  processable body = true ->
  exists outs,
    transactions (field "result" body) = Normal (JArray outs)
    /\ mapM_from (fun _ tx => reportTx tx) 0%nat (firstn 10 (elements (field "result" body)))
       = Normal outs.
Proof.
  unfold processable. intros Hp.
  destruct (field "result" body) as [| | b | x | s | items | props] eqn:Hr;
    try (exists []; split; [unfold transactions; apply negb_true_iff in Hp; now rewrite Hp
                          | reflexivity]).
  destruct (transactions_normalisable items Hp) as (outs & Hm & Ht).
  exists outs. split; [exact Ht | exact Hm].
Qed.

(** The response to a request whose first parsed body is truthy and
    processable: the shaped report, after one balance request. *)
Lemma GET_processable (w : World) (address expectedAmount endpoint : string)
    (body : js_value) :
  address <> "" -> expectedAmount <> "" ->
  first_parsed w (apiEndpoints address (etherscanApiKey w)) = Some (endpoint, body) ->
  truthy body = true ->
  processable body = true ->
  exists verdict outs before after,
    judge w address expectedAmount body = Normal verdict
    /\ mapM_from (fun _ tx => reportTx tx) 0%nat (firstn 10 (elements (field "result" body)))
       = Normal outs
    /\ apiEndpoints address (etherscanApiKey w) = (before ++ endpoint :: after)%list
    /\ GET w {| address_param := Some address; amount_param := Some expectedAmount |}
       = {| reply :=
              report address expectedAmount (etherscanApiKey w) (Some endpoint) verdict
                (fst (refine w (Some endpoint) (balance verdict))) (JArray outs)
                (JObject
                   [ ("status", or_else (field "status" body) (JString "0"));
                     ("message", or_else (field "message" body) (JString "Unknown error"));
                     ("result", or_else (field "result" body) JNull) ]);
            outbound := (before ++ [endpoint] ++ [balanceUrl endpoint])%list |}.
Proof.
  intros Ha He Hfirst Ht Hp.
  destruct (check_first_parsed w address expectedAmount endpoint body Hfirst Ht)
    as (fetched & Hd & Hw & (before & after & Hurls & Hreq) & Hcheck).
  destruct (judge_processable w address expectedAmount body Ht Hp) as [verdict Hj].
  destruct (transactions_processable body Hp) as (outs & Htx & Hm).
  exists verdict, outs, before, after.
  split; [exact Hj |]. split; [exact Hm |]. split; [exact Hurls |].
  rewrite (GET_present w address expectedAmount Ha He). rewrite Hcheck.
  rewrite respond_truthy by now rewrite Hd.
  rewrite Hd, Hw, Hj, Htx, Hreq. simpl. now rewrite <- app_assoc.
Qed.

(** ** The transfer-derived balance *)

Lemma fold_left_value (txs : list Processed) (start : float) :
  fold_left (fun sum tx => (sum + value tx)%float) txs start
  = fold_left PrimFloat.add (map value txs) start.
Proof.
  revert start. induction txs as [| tx txs IH]; intros start; simpl; [reflexivity |].
  apply IH.
Qed.

Lemma get_field (tx : js_value) (name : string) (v : js_value) :
  get tx name = Normal v -> v = field name tx.
Proof.
  destruct tx; simpl; intros H; try discriminate H; now injection H as <-.
Qed.

(** The amount the handler computes for a transaction, when it computes
    one, is the amount the transaction lists. *)
Lemma txAmount_listed (tx : js_value) (amount : float) :
  txAmount tx = Normal amount -> amount = listed_amount tx.
Proof.
  unfold txAmount, parseInt, listed_amount. intros H. invert_binds.
  apply get_field in Ha, Ha1. subst a a1.
  rewrite Ha4, Ha3. now subst amount a0 a2.
Qed.

(** The processed transactions that pass the filter of line 176 are those
    of the transactions sent to the address, with the amounts they list. *)
Lemma incoming_amounts (address expectedAmount : string) (clock : nat -> Z)
    (items : list js_value) :
  forall (i : nat) (txs : list Processed),
    mapM_from (fun i tx => processTx address expectedAmount (clock i) tx) i items
    = Normal txs ->
    map value (filter isToAddress txs)
    = map listed_amount (filter (to_address address) items).
Proof.
  induction items as [| tx items IH]; simpl; intros i txs H.
  - now injection H as <-.
  - invert_binds. subst txs.
    apply processTx_normal in Ha.
    destruct Ha as (amount & t & recipient & Hamount & _ & Hto & Hv & _ & Hi & _).
    simpl. unfold to_address at 1. rewrite Hto, <- Hi.
    specialize (IH _ _ Ha0).
    destruct (isToAddress a); simpl; [| exact IH].
    rewrite Hv, (txAmount_listed tx amount Hamount). now rewrite IH.
Qed.

(** ** The shaped transactions *)

Lemma reportTx_reshaped (tx out : js_value) :
  reportTx tx = Normal out -> reshaped tx out.
Proof.
  unfold reportTx, reshaped. intros H. invert_binds.
  apply toISOString_normal in Ha4. destruct Ha4 as (t & -> & ->).
  exists a2, t. repeat split; try assumption.
  subst out.
  destruct tx; simpl in *; try discriminate Ha; congruence.
Qed.

Lemma mapM_from_Forall2 {A B : Type} (f : A -> completion B) (l : list A) :
  forall (i : nat) (bs : list B),
    mapM_from (fun _ a => f a) i l = Normal bs ->
    Forall2 (fun a b => f a = Normal b) l bs.
Proof.
  induction l as [| x l IH]; simpl; intros i bs H.
  - injection H as <-. constructor.
  - invert_binds. subst bs. constructor; [exact Ha | eauto].
Qed.

(** What the shaping of line 214 gives when it completes. *)
Lemma transactions_normal (result v : js_value) :
  transactions result = Normal v ->
  exists outs,
    v = JArray outs
    /\ (length outs <= 10)%nat
    /\ (outs = []
        \/ exists items,
             result = JArray items
             /\ Forall2 reshaped (firstn 10 items) outs).
Proof.
  unfold transactions. destruct (truthy result) eqn:Ht.
  - destruct result as [| | b | x | s | items | props]; try discriminate.
    intros H. invert_binds. subst v.
    pose proof (mapM_from_nth _ _ _ _ Ha) as [Hlen _].
    pose proof (mapM_from_Forall2 reportTx _ _ _ Ha) as Hall.
    exists a. split; [reflexivity |]. split.
    + rewrite Hlen, length_firstn. lia.
    + right. exists items. split; [reflexivity |].
      eapply Forall2_impl; [| exact Hall]. exact reportTx_reshaped.
  - intros H. injection H as <-. exists []. repeat split; [simpl; lia | now left].
Qed.

(** ** The balance request *)

Lemma parses_some (w : World) (url : string) (v : js_value) :
  parses w url = Some v ->
  exists response,
    fetch w url = Resolved response /\ ok response = true /\ payload response = Parsed v.
Proof.
  unfold parses. destruct (fetch w url) as [e | response]; [discriminate |].
  destruct (ok response) eqn:Hok; [| discriminate].
  destruct (payload response) eqn:Hpay; try discriminate.
  intros H. injection H as ->. now exists response.
Qed.

(** The balance request succeeds with status "1": the balance becomes the
    integer read from the result, over [Math.pow(10, 18)]. *)
Lemma refine_current (w : World) (endpoint : string) (balance : float)
    (balanceData : js_value) (wei : float) :
  parses w (balanceUrl endpoint) = Some balanceData ->
  field "status" balanceData = JString "1" ->
  parseInt (or_else (field "result" balanceData) (JString "0")) = Normal wei ->
  fst (refine w (Some endpoint) balance) = (wei / Math_pow 10 18)%float.
Proof.
  intros Hp Hs Hwei.
  apply parses_some in Hp. destruct Hp as (response & Hf & Hok & Hpay).
  assert (truthy balanceData = true) as Ht
    by (apply (field_truthy "status"); now rewrite Hs).
  unfold refine, currentBalance. rewrite Hf, Hok, Hpay.
  rewrite !get_truthy by exact Ht. rewrite Hs. simpl.
  now rewrite Hwei.
Qed.

(** The balance request fails in any way (rejection, status outside
    200-299, unreadable or malformed body, body status other than "1"):
    the balance stays. *)
Lemma refine_unchanged (w : World) (endpoint : string) (balance : float) :
  parses w (balanceUrl endpoint) = None
  \/ (exists balanceData,
        parses w (balanceUrl endpoint) = Some balanceData
        /\ strict_eq_string (field "status" balanceData) "1" = false) ->
  fst (refine w (Some endpoint) balance) = balance.
Proof.
  unfold refine, currentBalance, parses.
  destruct (fetch w (balanceUrl endpoint)) as [e | response]; [reflexivity |].
  destruct (ok response); [| reflexivity].
  destruct (payload response) as [e | message | balanceData]; try reflexivity.
  intros [H | (v & H & Hs)]; [discriminate H |].
  injection H as <-.
  destruct balanceData; simpl in *; try reflexivity.
  rewrite Hs. reflexivity.
Qed.

(** ** Listings *)

(** The report on a listing of normalisable transactions is confirmed
    exactly when one of them is a matching transaction. *)
Lemma listing_confirmed (w : World) (address expectedAmount endpoint : string)
    (body : js_value) (items : list js_value) :
  address <> "" -> expectedAmount <> "" ->
  first_parsed w (apiEndpoints address (etherscanApiKey w)) = Some (endpoint, body) ->
  field "status" body = JString "1" ->
  field "result" body = JArray items ->
  forallb normalisable items = true ->
  field "confirmed"
    (json (reply (GET w {| address_param := Some address;
                           amount_param := Some expectedAmount |})))
  = JBool true
  <-> exists i tx, nth_error items i = Some tx /\ Matching w address expectedAmount i tx.
Proof.
  intros Ha He Hfirst Hs Hr Hn.
  assert (truthy body = true) as Ht by (apply (field_truthy "status"); now rewrite Hs).
  assert (processable body = true) as Hp by (unfold processable; now rewrite Hr).
  destruct (GET_processable w address expectedAmount endpoint body Ha He Hfirst Ht Hp)
    as (verdict & outs & before & after & Hj & _ & _ & HGET).
  rewrite HGET. simpl.
  rewrite (judge_listing w address expectedAmount body items Hs Hr) in Hj.
  apply bind_normal in Hj. destruct Hj as (txs & Htxs & Hv).
  injection Hv as <-. simpl.
  rewrite <- (matching_nonempty w address expectedAmount items txs Htxs).
  split; [now intros [= ->] | now intros ->].
Qed.

(** On a listing with a transaction that is not normalisable the [try]
    block throws, before any balance request. *)
Lemma listing_throws (w : World) (address expectedAmount endpoint : string)
    (body : js_value) (items : list js_value) :
  first_parsed w (apiEndpoints address (etherscanApiKey w)) = Some (endpoint, body) ->
  field "status" body = JString "1" ->
  field "result" body = JArray items ->
  forallb normalisable items = false ->
  exists error, fst (check w address expectedAmount) = Throw error.
Proof.
  intros Hfirst Hs Hr Hn.
  assert (truthy body = true) as Ht by (apply (field_truthy "status"); now rewrite Hs).
  destruct (check_first_parsed w address expectedAmount endpoint body Hfirst Ht)
    as (fetched & Hd & Hw & _ & Hcheck).
  rewrite Hcheck. rewrite respond_truthy by now rewrite Hd.
  rewrite Hd, (judge_listing w address expectedAmount body items Hs Hr).
  destruct (processedTxs_not_normalisable w address expectedAmount items Hn)
    as [error ->].
  now exists error.
Qed.

(** ** Manual mode *)

(** When every endpoint fails (rejection, status outside 200-299,
    unreadable or malformed body), both are requested, the manual mode
    report is returned with the last error, and no balance is requested. *)
Lemma all_endpoints_fail_manual_mode (w : World) (address expectedAmount : string) :
  address <> "" -> expectedAmount <> "" ->
  first_parsed w (apiEndpoints address (etherscanApiKey w)) = None ->
  exists last,
    GET w {| address_param := Some address; amount_param := Some expectedAmount |}
    = {| reply := manual_mode address (etherscanApiKey w) (Some last);
         outbound := apiEndpoints address (etherscanApiKey w) |}.
Proof.
  intros Ha He Hnone.
  destruct (check_none_parsed w address expectedAmount Hnone) as [last Hcheck].
  exists last. rewrite (GET_present w address expectedAmount Ha He).
  now rewrite Hcheck.
Qed.

(** When an endpoint's body parses to a truthy value, the loop stops at
    the first such endpoint: the endpoints after it are not requested. *)
Lemma loop_stops_at_first_parsed (w : World) (address expectedAmount endpoint : string)
    (body : js_value) :
  address <> "" -> expectedAmount <> "" ->
  first_parsed w (apiEndpoints address (etherscanApiKey w)) = Some (endpoint, body) ->
  truthy body = true ->
  exists before after calls,
    apiEndpoints address (etherscanApiKey w) = (before ++ endpoint :: after)%list
    /\ outbound (GET w {| address_param := Some address;
                          amount_param := Some expectedAmount |})
       = (before ++ [endpoint] ++ calls)%list.
Proof.
  intros Ha He Hfirst Ht.
  destruct (check_first_parsed w address expectedAmount endpoint body Hfirst Ht)
    as (fetched & Hd & Hw & (before & after & Hurls & Hreq) & Hcheck).
  rewrite (GET_present w address expectedAmount Ha He). rewrite Hcheck.
  cbn [outbound snd].
  exists before, after, (snd (respond w address expectedAmount fetched)).
  split; [exact Hurls |]. rewrite Hreq. now rewrite <- app_assoc.
Qed.

(* ================================================================= *)
(** ** Input validation *)

(** C9. For every request where the address parameter or the amount
    parameter is absent or empty, the handler returns HTTP 400 with
    [confirmed: false] and a [debugInfo] echoing the received address and
    amount, and issues no outbound call. *)
Theorem missing_parameter_is_rejected (w : World) (request : Request) :
  address_param request = None \/ address_param request = Some ""
  \/ amount_param request = None \/ amount_param request = Some "" ->
  let out := GET w request in
  http_status (reply out) = 400%N
  /\ field "confirmed" (json (reply out)) = JBool false
  /\ field "address" (field "debugInfo" (json (reply out)))
     = nullable (address_param request)
  /\ field "expectedAmount" (field "debugInfo" (json (reply out)))
     = nullable (amount_param request)
  /\ outbound out = [].
Proof.
  destruct request as [address amount]. simpl. unfold GET. simpl.
  intros [-> | [-> | [-> | ->]]].
  - repeat split.
  - destruct amount; simpl; repeat split.
  - destruct address; repeat split.
  - destruct address as [address |]; simpl; [| repeat split].
    rewrite orb_true_r. repeat split.
Qed.

(* ================================================================= *)
(** ** Top-level failure *)

Lemma isNetworkError_mentions (error : thrown) :
  isNetworkError error = true <-> mentions_network error.
Proof.
  unfold mentions_network. destruct error as [message |]; simpl.
  - rewrite !orb_true_iff. split.
    + intros H. exists message. split; [reflexivity | tauto].
    + intros (m & Hm & H). injection Hm as ->. tauto.
  - split; [discriminate |]. intros (m & Hm & _). discriminate Hm.
Qed.

(** Every response is a 200, but for the 400 of a missing parameter. *)
Lemma GET_status (w : World) (request : Request) :
  let out := GET w request in
  http_status (reply out) = 200%N
  \/ http_status (reply out) = 400%N
     /\ (missing (address_param request) = true \/ missing (amount_param request) = true).
Proof.
  destruct request as [[address |] [amount |]]; unfold GET; simpl;
    try (right; split; [reflexivity | tauto]).
  destruct (String.eqb address "") eqn:Ha; simpl;
    [right; split; [reflexivity | tauto] |].
  destruct (String.eqb amount "") eqn:He; simpl;
    [right; split; [reflexivity | tauto] |].
  left. unfold check.
  destruct (truthy _); [| reflexivity].
  unfold respond.
  destruct (bind _ _) as [[status verdict] | error]; simpl; [| reflexivity].
  destruct (refine _ _ _) as [current calls]. simpl.
  destruct (bind _ _) as [response | error] eqn:Hr; simpl; [| reflexivity].
  invert_binds. now subst response.
Qed.

(** C6. Any uncaught error during the flow is caught at the top and
    reported as HTTP 200 with [confirmed: false], [balance: 0],
    [transactions: []], and [manualMode] true if and only if the error's
    message mentions one of the keywords "fetch failed", "ENOTFOUND",
    "timeout"; and no response has a status other than 200, but for the
    400 of a missing parameter.  The first part is the [catch] block on
    every thrown value, whether the [try] block can throw it or not; the
    second is that what the [try] block throws is answered by the [catch]
    block; the third is the status. *)
Theorem uncaught_error_is_reported :
  (forall error : thrown,
     let response := request_failed error in
     http_status response = 200%N
     /\ field "confirmed" (json response) = JBool false
     /\ field "balance" (json response) = JNumber 0
     /\ field "transactions" (json response) = JArray []
     /\ (field "manualMode" (json response) = JBool true <-> mentions_network error)
     /\ (field "manualMode" (json response) = JBool false <-> ~ mentions_network error))
  /\ (forall (w : World) (address expectedAmount : string) (error : thrown),
        address <> "" -> expectedAmount <> "" ->
        fst (check w address expectedAmount) = Throw error ->
        let out :=
          GET w {| address_param := Some address; amount_param := Some expectedAmount |} in
        reply out = request_failed error
        /\ http_status (reply out) = 200%N
        /\ field "confirmed" (json (reply out)) = JBool false
        /\ field "balance" (json (reply out)) = JNumber 0
        /\ field "transactions" (json (reply out)) = JArray []
        /\ field "manualMode" (json (reply out)) = JBool (isNetworkError error)
        /\ (field "manualMode" (json (reply out)) = JBool true <-> mentions_network error))
  /\ (forall (w : World) (request : Request),
        http_status (reply (GET w request)) <> 200%N ->
        http_status (reply (GET w request)) = 400%N
        /\ (missing (address_param request) = true
            \/ missing (amount_param request) = true)).
Proof.
  split; [| split].
  - intros error. simpl.
    pose proof (isNetworkError_mentions error) as Hmentions.
    repeat split.
    + intros H. injection H as H. now apply Hmentions.
    + intros H. apply Hmentions in H. now rewrite H.
    + intros H Hm. apply Hmentions in Hm. rewrite Hm in H. discriminate H.
    + intros H. destruct (isNetworkError error); [| reflexivity].
      contradiction H. now apply Hmentions.
  - intros w address expectedAmount error Ha He Hthrow. simpl.
    rewrite (GET_present w address expectedAmount Ha He). simpl. rewrite Hthrow.
    repeat split; simpl.
    + intros H. injection H as H. now apply isNetworkError_mentions.
    + intros H. apply isNetworkError_mentions in H. now rewrite H.
  - intros w request Hstatus.
    destruct (GET_status w request) as [H | H]; [contradiction | exact H].
Qed.

(* ================================================================= *)
(** ** Confirmation *)

(** C1, amended. For every request with both parameters present, when the
    first successfully parsed upstream body has status "1" and an array
    result: if every transaction of the result is normalisable, the
    report's [confirmed] field is true if and only if at least one
    transaction is a matching transaction (recent, to the requested
    address, of the expected amount); and if some transaction is not
    normalisable, the handler fails at it and [confirmed] is false,
    whatever the other transactions are. *)
Theorem confirmed_iff_matching_transaction (w : World)
    (address expectedAmount endpoint : string) (body : js_value) (items : list js_value) :
  address <> "" -> expectedAmount <> "" ->
  first_parsed w (apiEndpoints address (etherscanApiKey w)) = Some (endpoint, body) ->
  field "status" body = JString "1" ->
  field "result" body = JArray items ->
  let out :=
    GET w {| address_param := Some address; amount_param := Some expectedAmount |} in
  (forallb normalisable items = true ->
   (field "confirmed" (json (reply out)) = JBool true
    <-> exists i tx,
          nth_error items i = Some tx /\ Matching w address expectedAmount i tx))
  /\ (forallb normalisable items = false ->
      field "confirmed" (json (reply out)) = JBool false).
Proof.
  intros Ha He Hfirst Hs Hr out. split.
  - intros Hn. subst out.
    exact (listing_confirmed w address expectedAmount endpoint body items
             Ha He Hfirst Hs Hr Hn).
  - intros Hn. subst out.
    destruct (listing_throws w address expectedAmount endpoint body items Hfirst Hs Hr Hn)
      as [error Hthrow].
    rewrite (GET_present w address expectedAmount Ha He). simpl. now rewrite Hthrow.
Qed.

(** C10, amended. The recency check has no lower bound on the
    transaction time: a transaction whose [timeStamp] gives a valid instant
    at or after the clock reading is recent, however far in the future, so
    that in a listing of normalisable transactions a future-dated
    transaction to the requested address and of the expected amount makes
    [confirmed] true; and a transaction with a valid instant is not recent
    exactly when it is at least 3600 seconds (3 600 000 ms) in the past. *)
Theorem recency_has_no_lower_bound :
  (forall now t : Z, now <= t -> recent now (Some t) = true)
  /\ (forall now t : Z, recent now (Some t) = false <-> 3600000 <= now - t)
  /\ (forall (w : World) (address expectedAmount endpoint : string) (body : js_value)
             (items : list js_value) (i : nat) (tx : js_value)
             (amount : float) (t : Z) (recipient : string),
        address <> "" -> expectedAmount <> "" ->
        first_parsed w (apiEndpoints address (etherscanApiKey w)) = Some (endpoint, body) ->
        field "status" body = JString "1" ->
        field "result" body = JArray items ->
        forallb normalisable items = true ->
        nth_error items i = Some tx ->
        txAmount tx = Normal amount ->
        txTime tx = Normal (Some t) ->
        get tx "to" = Normal (JString recipient) ->
        Date_now w i <= t ->
        toLowerCase recipient = toLowerCase address ->
        expected amount expectedAmount = true ->
        field "confirmed"
          (json (reply (GET w {| address_param := Some address;
                                 amount_param := Some expectedAmount |})))
        = JBool true).
Proof.
  split; [| split].
  - intros now t H. simpl. apply Z.ltb_lt. lia.
  - intros now t. simpl. rewrite Z.ltb_ge. reflexivity.
  - intros w address expectedAmount endpoint body items i tx amount t recipient
           Ha He Hfirst Hs Hr Hn Hi Hamount Htime Hto Hfuture Hcase Hexp.
    apply (listing_confirmed w address expectedAmount endpoint body items
             Ha He Hfirst Hs Hr Hn).
    exists i, tx. split; [exact Hi |].
    exists amount, t, recipient. repeat split; try assumption. lia.
Qed.

(* ================================================================= *)
(** ** Balance *)

(** C8, amended. When the upstream body has status "1" and an array
    result: if every transaction of the result is normalisable, the
    transfer-derived balance (the balance before any refinement) is the sum
    of value / 10^tokenDecimal over exactly the transactions whose [to]
    field is the requested address up to case, whatever their time and
    amount, and it is the balance of the report when the balance request
    does not replace it; if some transaction is not normalisable, the
    handler fails at it, no transfer-derived balance is computed, and the
    balance of the response is 0, whatever the other transactions list. *)
Theorem transfer_balance_is_incoming_sum (w : World) (address expectedAmount : string)
    (body : js_value) (items : list js_value) :
  field "status" body = JString "1" ->
  field "result" body = JArray items ->
  let incoming_sum := sum (map listed_amount (filter (to_address address) items)) in
  let out :=
    GET w {| address_param := Some address; amount_param := Some expectedAmount |} in
  (forallb normalisable items = true ->
   exists verdict,
     judge w address expectedAmount body = Normal verdict
     /\ balance verdict = incoming_sum
     /\ forall endpoint,
          address <> "" -> expectedAmount <> "" ->
          first_parsed w (apiEndpoints address (etherscanApiKey w))
          = Some (endpoint, body) ->
          parses w (balanceUrl endpoint) = None
          \/ (exists balanceData,
                parses w (balanceUrl endpoint) = Some balanceData
                /\ strict_eq_string (field "status" balanceData) "1" = false) ->
          field "balance" (json (reply out)) = JNumber incoming_sum)
  /\ (forallb normalisable items = false ->
      exists error,
        judge w address expectedAmount body = Throw error
        /\ forall endpoint,
             address <> "" -> expectedAmount <> "" ->
             first_parsed w (apiEndpoints address (etherscanApiKey w))
             = Some (endpoint, body) ->
             reply out = request_failed error
             /\ field "balance" (json (reply out)) = JNumber 0).
Proof.
  intros Hs Hr incoming_sum out.
  assert (truthy body = true) as Ht by (apply (field_truthy "status"); now rewrite Hs).
  pose proof (judge_listing w address expectedAmount body items Hs Hr) as Hjudge.
  split.
  - intros Hn.
    destruct (processedTxs_normalisable w address expectedAmount items Hn) as [txs Htxs].
    rewrite Htxs in Hjudge. simpl in Hjudge.
    assert (incoming txs = incoming_sum) as Hsum.
    { unfold incoming, incoming_sum, sum. rewrite fold_left_value.
      now rewrite (incoming_amounts address expectedAmount (Date_now w) items _ _ Htxs). }
    eexists. split; [exact Hjudge |]. split; [exact Hsum |].
    intros endpoint Ha He Hfirst Hfail.
    assert (processable body = true) as Hp by (unfold processable; now rewrite Hr).
    destruct (GET_processable w address expectedAmount endpoint body Ha He Hfirst Ht Hp)
      as (verdict & outs & before & after & Hj & _ & _ & HGET).
    rewrite Hjudge in Hj. injection Hj as <-.
    subst out. rewrite HGET. cbn [reply].
    match goal with
    | |- context [report ?a ?e ?k ?we ?v ?b ?t ?st] =>
        destruct (report_fields a e k we v b t st) as (_ & _ & Hbalance & _)
    end.
    rewrite Hbalance. cbn [balance].
    now rewrite (refine_unchanged w endpoint (incoming txs) Hfail), Hsum.
  - intros Hn.
    destruct (processedTxs_not_normalisable w address expectedAmount items Hn)
      as [error Htxs].
    rewrite Htxs in Hjudge. simpl in Hjudge.
    exists error. split; [exact Hjudge |].
    intros endpoint Ha He Hfirst.
    destruct (check_first_parsed w address expectedAmount endpoint body Hfirst Ht)
      as (fetched & Hd & _ & _ & Hcheck).
    subst out. rewrite (GET_present w address expectedAmount Ha He).
    rewrite Hcheck. rewrite respond_truthy by now rewrite Hd.
    rewrite Hd, Hjudge. split; reflexivity.
Qed.

(** C3, amended. For every invocation where an endpoint succeeded with a
    truthy body that is processable (its result is falsy or an array of
    normalisable transactions), the [try] block completes with the report,
    and in it: if the balance request succeeds with a status in 200-299 and
    body status "1", the balance is the integer read from the returned
    result over [Math.pow(10, 18)] (2.5 for "2500000000000000000" when
    that power is 10^18); if the balance request fails in any way, the
    balance is the transfer-derived one. *)
Theorem balance_refinement (w : World) (address expectedAmount endpoint : string)
    (body : js_value) (verdict : Verdict) :
  address <> "" -> expectedAmount <> "" ->
  first_parsed w (apiEndpoints address (etherscanApiKey w)) = Some (endpoint, body) ->
  truthy body = true ->
  processable body = true ->
  judge w address expectedAmount body = Normal verdict ->
  let out :=
    GET w {| address_param := Some address; amount_param := Some expectedAmount |} in
  fst (check w address expectedAmount) = Normal (reply out)
  /\ http_status (reply out) = 200%N
  /\ (forall balanceData wei,
        parses w (balanceUrl endpoint) = Some balanceData ->
        field "status" balanceData = JString "1" ->
        parseInt (or_else (field "result" balanceData) (JString "0")) = Normal wei ->
        field "balance" (json (reply out)) = JNumber (wei / Math_pow 10 18))
  /\ (forall balanceData,
        parses w (balanceUrl endpoint) = Some balanceData ->
        field "status" balanceData = JString "1" ->
        field "result" balanceData = JString "2500000000000000000" ->
        Math_pow 10 18 = 1000000000000000000%float ->
        field "balance" (json (reply out)) = JNumber 2.5)
  /\ (parses w (balanceUrl endpoint) = None
      \/ (exists balanceData,
            parses w (balanceUrl endpoint) = Some balanceData
            /\ strict_eq_string (field "status" balanceData) "1" = false) ->
      field "balance" (json (reply out)) = JNumber (balance verdict)).
Proof.
  intros Ha He Hfirst Ht Hp Hj out.
  destruct (GET_processable w address expectedAmount endpoint body Ha He Hfirst Ht Hp)
    as (verdict' & outs & before & after & Hj' & _ & _ & HGET).
  rewrite Hj in Hj'. injection Hj' as <-.
  assert (fst (check w address expectedAmount) = Normal (reply out)) as Hcheck.
  { pose proof (GET_present w address expectedAmount Ha He) as Hpresent.
    subst out. rewrite Hpresent. cbn [reply].
    rewrite Hpresent in HGET. injection HGET as Hreply _.
    destruct (fst (check w address expectedAmount)) as [response | error];
      [reflexivity |].
    unfold request_failed, report in Hreply. discriminate Hreply. }
  split; [exact Hcheck |].
  subst out. rewrite HGET. cbn [reply].
  destruct (report_fields address expectedAmount (etherscanApiKey w) (Some endpoint)
              verdict (fst (refine w (Some endpoint) (balance verdict))) (JArray outs)
              (JObject
                 [ ("status", or_else (field "status" body) (JString "0"));
                   ("message", or_else (field "message" body) (JString "Unknown error"));
                   ("result", or_else (field "result" body) JNull) ]))
    as (Hstatus & _ & Hbalance & _).
  rewrite Hbalance.
  split; [exact Hstatus |]. split; [| split].
  - intros balanceData wei Hparses Hs Hwei.
    now rewrite (refine_current w endpoint (balance verdict) balanceData wei Hparses Hs Hwei).
  - intros balanceData Hparses Hs Hr Hpow.
    rewrite (refine_current w endpoint (balance verdict) balanceData
               (parseInt_string "2500000000000000000") Hparses Hs).
    + rewrite Hpow. f_equal.
    + rewrite Hr. reflexivity.
  - intros Hfail. now rewrite (refine_unchanged w endpoint (balance verdict) Hfail).
Qed.

(* ================================================================= *)
(** ** Response shaping *)

(** C5, amended. For every successfully parsed upstream body that is
    truthy and processable (its result is falsy or an array of normalisable
    transactions), whatever its status, the handler returns an HTTP 200
    report whose [apiStatus] carries the upstream body's status, message and
    result where they are truthy, and the defaults "0", "Unknown error" and
    null where they are falsy or absent. *)
Theorem apiStatus_carries_upstream_or_defaults (w : World)
    (address expectedAmount endpoint : string) (body : js_value) :
  address <> "" -> expectedAmount <> "" ->
  first_parsed w (apiEndpoints address (etherscanApiKey w)) = Some (endpoint, body) ->
  truthy body = true ->
  processable body = true ->
  let out :=
    GET w {| address_param := Some address; amount_param := Some expectedAmount |} in
  let carried name := field name (field "apiStatus" (json (reply out))) in
  http_status (reply out) = 200%N
  /\ (forall name,
        In name ["status"; "message"; "result"] ->
        truthy (field name body) = true -> carried name = field name body)
  /\ (truthy (field "status" body) = false -> carried "status" = JString "0")
  /\ (truthy (field "message" body) = false -> carried "message" = JString "Unknown error")
  /\ (truthy (field "result" body) = false -> carried "result" = JNull).
Proof.
  intros Ha He Hfirst Ht Hp out carried.
  destruct (GET_processable w address expectedAmount endpoint body Ha He Hfirst Ht Hp)
    as (verdict & outs & before & after & _ & _ & _ & HGET).
  subst carried out. rewrite HGET. cbn [reply].
  match goal with
  | |- context [report ?a ?e ?k ?we ?v ?b ?txs ?st] =>
      destruct (report_fields a e k we v b txs st) as (Hstatus & _ & _ & _ & Hapi)
  end.
  rewrite Hapi. split; [exact Hstatus |].
  unfold or_else. split; [| split; [| split]].
  - intros name [<- | [<- | [<- | []]]] Hname; simpl; now rewrite Hname.
  - intros Hname. simpl. now rewrite Hname.
  - intros Hname. simpl. now rewrite Hname.
  - intros Hname. simpl. now rewrite Hname.
Qed.

(** C7, amended. For every HTTP 200 response, the [transactions] list is
    an array of at most 10 entries, and when it is not empty it is the
    first 10 transactions of the upstream result of the first parsed body,
    in upstream order, each reshaped to its hash, sender, recipient,
    normalised value, ISO timestamp and confirmations: without the block
    number and without the three derived booleans.  It is that list
    whenever the upstream result is an array of normalisable transactions,
    also when it has more than 10. *)
Theorem transactions_are_first_ten_reshaped :
  (forall (w : World) (request : Request),
     let out := GET w request in
     http_status (reply out) = 200%N ->
     exists outs,
       field "transactions" (json (reply out)) = JArray outs
       /\ (length outs <= 10)%nat
       /\ (outs = []
           \/ exists address endpoint body items,
                address_param request = Some address
                /\ first_parsed w (apiEndpoints address (etherscanApiKey w))
                   = Some (endpoint, body)
                /\ field "result" body = JArray items
                /\ Forall2 reshaped (firstn 10 items) outs))
  /\ (forall (w : World) (address expectedAmount endpoint : string) (body : js_value)
             (items : list js_value),
        address <> "" -> expectedAmount <> "" ->
        first_parsed w (apiEndpoints address (etherscanApiKey w)) = Some (endpoint, body) ->
        field "result" body = JArray items ->
        forallb normalisable items = true ->
        let out :=
          GET w {| address_param := Some address; amount_param := Some expectedAmount |} in
        exists outs,
          field "transactions" (json (reply out)) = JArray outs
          /\ length outs = Nat.min 10 (length items)
          /\ Forall2 reshaped (firstn 10 items) outs).
Proof.
  split.
  - intros w request.
    destruct request as [[address |] [expectedAmount |]];
      try (unfold GET; simpl; discriminate).
    destruct (string_dec address "") as [-> | Ha];
      [unfold GET; simpl; discriminate |].
    destruct (string_dec expectedAmount "") as [-> | He].
    { unfold GET. simpl. rewrite orb_true_r. simpl. discriminate. }
    intros out _. subst out.
    rewrite (GET_present w address expectedAmount Ha He). cbn [reply address_param].
    unfold check.
    pose proof (tryEndpoints_first_parsed w (apiEndpoints address (etherscanApiKey w)) None [])
      as Hloop. cbv zeta in Hloop.
    remember (tryEndpoints w (apiEndpoints address (etherscanApiKey w)) None []) as fetched
      eqn:Hfetched. clear Hfetched.
    destruct (truthy (data fetched)) eqn:Ht;
      [| exists []; split; [reflexivity | split; [simpl; lia | now left]]].
    rewrite respond_truthy by exact Ht.
    destruct (judge w address expectedAmount (data fetched)) as [verdict | error];
      [| exists []; split; [reflexivity | split; [simpl; lia | now left]]].
    cbn [fst].
    destruct (transactions (field "result" (data fetched))) as [v | error] eqn:Htx;
      [| exists []; split; [reflexivity | split; [simpl; lia | now left]]].
    apply transactions_normal in Htx.
    destruct Htx as (outs & -> & Hlen & Houts).
    exists outs. split; [reflexivity |]. split; [exact Hlen |].
    destruct Houts as [-> | (items & Hr & Hall)]; [now left |].
    right.
    destruct (first_parsed w (apiEndpoints address (etherscanApiKey w)))
      as [[endpoint body] |] eqn:Hfirst.
    + destruct Hloop as (Hd & _). rewrite Hd in Hr.
      exists address, endpoint, body, items.
      split; [reflexivity |]. split; [exact Hfirst |]. split; [exact Hr | exact Hall].
    + destruct Hloop as (Hd & _). rewrite Hd in Ht. discriminate Ht.
  - intros w address expectedAmount endpoint body items Ha He Hfirst Hr Hn out.
    assert (truthy body = true) as Ht by (apply (field_truthy "result"); now rewrite Hr).
    assert (processable body = true) as Hp by (unfold processable; now rewrite Hr).
    destruct (GET_processable w address expectedAmount endpoint body Ha He Hfirst Ht Hp)
      as (verdict & outs & before & after & _ & Hm & _ & HGET).
    subst out. rewrite HGET. cbn [reply]. rewrite Hr in Hm. cbn [elements] in Hm.
    exists outs. split; [reflexivity |]. split.
    + destruct (mapM_from_nth _ _ _ _ Hm) as [Hlen _].
      now rewrite Hlen, length_firstn.
    + eapply Forall2_impl; [exact reportTx_reshaped |].
      exact (mapM_from_Forall2 reportTx _ _ _ Hm).
Qed.


(* ================================================================= *)
(** ** The four ways an invocation ends *)

Lemma refine_calls (w : World) (endpoint : option string) (balance : float) :
  snd (refine w endpoint balance)
  = match endpoint with
    | Some url => [balanceUrl url]
    | None => []
    end.
Proof.
  now destruct endpoint.
Qed.

(** With both parameters present, an invocation ends in the manual mode
    report, in a failure of the processing (before the balance request), in
    a failure of the shaping (after it), or in the shaped report. *)
Lemma GET_cases (w : World) (address expectedAmount : string) :
  address <> "" -> expectedAmount <> "" ->
  let fetched := tryEndpoints w (apiEndpoints address (etherscanApiKey w)) None [] in
  let out :=
    GET w {| address_param := Some address; amount_param := Some expectedAmount |} in
  (truthy (data fetched) = false
   /\ out = {| reply := manual_mode address (etherscanApiKey w) (lastError fetched);
               outbound := requested fetched |})
  \/ (truthy (data fetched) = true
      /\ exists error,
           judge w address expectedAmount (data fetched) = Throw error
           /\ fst (check w address expectedAmount) = Throw error
           /\ out = {| reply := request_failed error;
                       outbound := (requested fetched ++ [])%list |})
  \/ (truthy (data fetched) = true
      /\ exists verdict error,
           judge w address expectedAmount (data fetched) = Normal verdict
           /\ transactions (field "result" (data fetched)) = Throw error
           /\ fst (check w address expectedAmount) = Throw error
           /\ out = {| reply := request_failed error;
                       outbound :=
                         (requested fetched
                            ++ snd (refine w (workingEndpoint fetched) (balance verdict)))%list |})
  \/ (truthy (data fetched) = true
      /\ exists verdict txs,
           judge w address expectedAmount (data fetched) = Normal verdict
           /\ transactions (field "result" (data fetched)) = Normal txs
           /\ out = {| reply :=
                         report address expectedAmount (etherscanApiKey w)
                           (workingEndpoint fetched) verdict
                           (fst (refine w (workingEndpoint fetched) (balance verdict))) txs
                           (JObject
                              [ ("status",
                                  or_else (field "status" (data fetched)) (JString "0"));
                                ("message",
                                  or_else (field "message" (data fetched))
                                          (JString "Unknown error"));
                                ("result", or_else (field "result" (data fetched)) JNull) ]);
                       outbound :=
                         (requested fetched
                            ++ snd (refine w (workingEndpoint fetched) (balance verdict)))%list |}).
Proof.
  intros Ha He fetched out. subst out.
  rewrite (GET_present w address expectedAmount Ha He).
  unfold check. fold fetched.
  destruct (truthy (data fetched)) eqn:Ht.
  - right.
    rewrite (respond_truthy w address expectedAmount fetched Ht).
    destruct (judge w address expectedAmount (data fetched)) as [verdict | error].
    + right.
      destruct (transactions (field "result" (data fetched))) as [txs | error] eqn:Htx.
      * right. split; [reflexivity |]. exists verdict, txs. repeat split.
      * left. split; [reflexivity |]. exists verdict, error. repeat split.
    + left. split; [reflexivity |]. now exists error.
  - left. now split.
Qed.

Lemma first_parsed_parses (w : World) (urls : list string) (url : string) (v : js_value) :
  first_parsed w urls = Some (url, v) -> parses w url = Some v.
Proof.
  induction urls as [| u urls IH]; simpl; [discriminate |].
  destruct (parses w u) as [v' |] eqn:Hu; [| exact IH].
  intros H. injection H as <- <-. exact Hu.
Qed.

(** When the loop leaves a truthy body, it has left the endpoint that gave
    it, and requested the endpoints up to that one. *)
Lemma truthy_data_has_endpoint (w : World) (urls : list string) :
  let fetched := tryEndpoints w urls None [] in
  truthy (data fetched) = true ->
  exists before endpoint after,
    urls = (before ++ endpoint :: after)%list
    /\ workingEndpoint fetched = Some endpoint
    /\ requested fetched = (before ++ [endpoint])%list
    /\ Forall (fun u => parses w u = None) before
    /\ parses w endpoint = Some (data fetched).
Proof.
  intros fetched Ht.
  pose proof (tryEndpoints_first_parsed w urls None []) as Hloop.
  cbv zeta in Hloop. fold fetched in Hloop.
  destruct (first_parsed w urls) as [[url v] |] eqn:Hfirst.
  - destruct Hloop as (Hd & Hw & before & after & Hurls & Hreq & Hfail).
    exists before, url, after. repeat split; try assumption.
    rewrite Hd. exact (first_parsed_parses w urls url v Hfirst).
  - destruct Hloop as (Hd & _). rewrite Hd in Ht. discriminate Ht.
Qed.

(* ================================================================= *)
(** * Further properties *)

(** ** Outbound requests *)

Lemma first_parsed_none (w : World) (urls : list string) :
  first_parsed w urls = None -> Forall (fun u => parses w u = None) urls.
Proof.
  induction urls as [| u urls IH]; simpl; intros H; [constructor |].
  destruct (parses w u) eqn:Hu; [discriminate H |].
  constructor; [exact Hu | exact (IH H)].
Qed.

(** X1. With both parameters present, the handler requests the transfer
    endpoints in order and stops at the first whose body parses: it
    requests them all when none parses, and otherwise the endpoints before
    that one, which all failed, and that one, and no endpoint after it.  A
    balance query follows, derived from that endpoint, exactly when its
    body is truthy and the processing of its transactions does not throw;
    nothing else is requested, so never more than three requests are
    made. *)
Theorem outbound_requests_are_bounded (w : World) (address expectedAmount : string) :
  address <> "" -> expectedAmount <> "" ->
  let endpoints := apiEndpoints address (etherscanApiKey w) in
  let out :=
    GET w {| address_param := Some address; amount_param := Some expectedAmount |} in
  (first_parsed w endpoints = None -> outbound out = endpoints)
  /\ (forall endpoint body,
        first_parsed w endpoints = Some (endpoint, body) ->
        exists before after,
          endpoints = (before ++ endpoint :: after)%list
          /\ Forall (fun u => parses w u = None) before
          /\ parses w endpoint = Some body
          /\ outbound out
             = (before ++ endpoint
                  :: (if truthy body && is_normal (judge w address expectedAmount body)
                      then [balanceUrl endpoint]
                      else []))%list)
  /\ (length (outbound out) <= 3)%nat.
Proof.
  intros Ha He endpoints out.
  pose proof (GET_cases w address expectedAmount Ha He) as Hcases.
  cbv zeta in Hcases. fold endpoints out in Hcases.
  pose proof (tryEndpoints_first_parsed w endpoints None []) as Hloop.
  cbv zeta in Hloop.
  assert (length endpoints = 2%nat) as Hlen by reflexivity.
  remember (tryEndpoints w endpoints None []) as fetched eqn:Hfetched.
  clearbody endpoints. clear Hfetched.
  destruct (first_parsed w endpoints) as [[url v] |] eqn:Hfirst.
  - destruct Hloop as (Hd & Hw & before & after & Hurls & Hreq & Hfail).
    simpl in Hreq.
    assert (outbound out
            = (before ++ url
                 :: (if truthy v && is_normal (judge w address expectedAmount v)
                     then [balanceUrl url]
                     else []))%list) as Hout.
    { rewrite Hd, Hw in Hcases.
      destruct Hcases as [[-> ->] | [(-> & error & -> & _ & ->)
                                    | [(-> & verdict & error & -> & _ & _ & ->)
                                      | (-> & verdict & txs & -> & _ & ->)]]];
        cbn [outbound andb is_normal].
      - exact Hreq.
      - now rewrite app_nil_r.
      - rewrite refine_calls, Hreq. now rewrite <- app_assoc.
      - rewrite refine_calls, Hreq. now rewrite <- app_assoc. }
    split; [discriminate |]. split.
    + intros endpoint body H. injection H as <- <-.
      exists before, after. split; [exact Hurls |]. split; [exact Hfail |].
      split; [exact (first_parsed_parses w endpoints url v Hfirst) | exact Hout].
    + rewrite Hout. rewrite Hurls, length_app in Hlen. simpl in Hlen.
      rewrite length_app. simpl.
      destruct (truthy v && is_normal (judge w address expectedAmount v)); simpl; lia.
  - destruct Hloop as (Hd & _ & Hreq & _). simpl in Hreq.
    assert (outbound out = endpoints) as Hout.
    { rewrite Hd in Hcases.
      destruct Hcases as [[_ ->] | [[Hf _] | [[Hf _] | [Hf _]]]];
        try discriminate Hf.
      exact Hreq. }
    split; [intros _; exact Hout |]. split; [discriminate |].
    rewrite Hout, Hlen. lia.
Qed.

(** ** Manual mode *)

(** X2. When no endpoint's body parses, the manual mode report carries the
    error of the last endpoint, the earlier error being overwritten: for a
    response with a status outside 200-299 it is "HTTP <status>:
    <statusText>", and for a rejection whose message mentions "fetch
    failed" or "ENOTFOUND" it is the fixed connectivity message.  Both
    endpoints have been requested and no balance. *)
Theorem last_error_is_reported (w : World) (address expectedAmount : string) :
  address <> "" -> expectedAmount <> "" ->
  let endpoints := apiEndpoints address (etherscanApiKey w) in
  first_parsed w endpoints = None ->
  let out :=
    GET w {| address_param := Some address; amount_param := Some expectedAmount |} in
  exists error,
    tryEndpoint w (last endpoints "") = Failed error
    /\ reply out = manual_mode address (etherscanApiKey w) (Some error)
    /\ outbound out = endpoints
    /\ field "lastError" (field "debugInfo" (json (reply out))) = JString error
    /\ field "message" (field "apiStatus" (json (reply out)))
       = JString ("All API endpoints failed. Last error: " ++ error)
    /\ (forall response,
          fetch w (last endpoints "") = Resolved response ->
          ok response = false ->
          error = "HTTP " ++ decimal (status response) ++ ": " ++ statusText response)
    /\ (forall message,
          fetch w (last endpoints "") = Rejected (ErrorObject message) ->
          includes message "fetch failed" = true \/ includes message "ENOTFOUND" = true ->
          error = "Network connectivity issue in serverless environment").
Proof.
  intros Ha He endpoints Hnone out.
  subst out. rewrite (GET_present w address expectedAmount Ha He).
  unfold check. fold endpoints.
  assert (exists first second, endpoints = [first; second]) as (first & second & Hends)
    by (do 2 eexists; reflexivity).
  rewrite Hends in *. clearbody endpoints.
  pose proof (first_parsed_none w _ Hnone) as Hfail.
  inversion Hfail as [| ? ? H1 Hfail']. inversion Hfail' as [| ? ? H2 _]. subst.
  pose proof (tryEndpoint_parses w first) as Hfirst. rewrite H1 in Hfirst.
  pose proof (tryEndpoint_parses w second) as Hsecond. rewrite H2 in Hsecond.
  destruct Hfirst as [error1 Hfirst]. destruct Hsecond as [error2 Hsecond].
  cbn [tryEndpoints last]. rewrite Hfirst, Hsecond.
  exists error2. cbn [data truthy lastError requested fst snd reply outbound app].
  split; [reflexivity |]. split; [reflexivity |]. split; [reflexivity |].
  split; [reflexivity |]. split; [reflexivity |]. split.
  - intros response Hfetch Hok. unfold tryEndpoint in Hsecond.
    rewrite Hfetch, Hok in Hsecond. now injection Hsecond as <-.
  - intros message Hfetch Hmentions. unfold tryEndpoint in Hsecond.
    rewrite Hfetch in Hsecond. injection Hsecond as <-. simpl.
    apply orb_true_iff in Hmentions. now rewrite Hmentions.
Qed.

(** ** What the top-level catch receives *)

Lemma bind_throws {A B : Type} (c : completion A) (k : A -> completion B) (e : thrown) :
  bind c k = Throw e -> c = Throw e \/ exists a, c = Normal a /\ k a = Throw e.
Proof.
  destruct c as [a | e']; simpl; intros H.
  - right. exists a. split; [reflexivity | exact H].
  - left. injection H as ->. reflexivity.
Qed.

(** Takes a hypothesis [bind c k = Throw e] apart into the step that
    threw. *)
Ltac find_throw H :=
  let a := fresh "a" in
  let Ha := fresh "Ha" in
  apply bind_throws in H; destruct H as [H | (a & Ha & H)].

Lemma mapM_from_thrower {A B : Type} (f : nat -> A -> completion B) (l : list A) :
  forall (i : nat) (e : thrown),
    mapM_from f i l = Throw e -> exists k a, f k a = Throw e.
Proof.
  induction l as [| x l IH]; simpl; intros i e H; [discriminate H |].
  find_throw H; [eauto |].
  find_throw H; [eauto | discriminate H].
Qed.

(** A conversion to string throws only on an object with a [toString]
    property. *)
Lemma ToString_throws :
  forall (v : js_value) (e : thrown), ToString v = Throw e -> e = cannot_convert.
Proof.
  fix IH 1. intros [| | b | x | s | items | props]; simpl; try discriminate.
  - generalize items. fix IHitems 1. intros [| x rest] e H; [discriminate H |].
    find_throw H.
    + pose proof (IH x e) as IHx.
      destruct x; try discriminate H; exact (IHx H).
    + pose proof (IHitems rest e) as IHrest.
      destruct rest as [| y rest']; [discriminate H |].
      find_throw H; [exact (IHrest H) | discriminate H].
  - intros e. destruct (existsb _ props); [| discriminate].
    intros H. now injection H as <-.
Qed.

Lemma get_throws (v : js_value) (name : string) (e : thrown) :
  get v name = Throw e ->
  e = cannot_read "undefined" name \/ e = cannot_read "null" name.
Proof.
  destruct v; simpl; intros H; try discriminate H; injection H as <-; auto.
Qed.

Lemma runtime_error_is_no_network_error (e : thrown) :
  runtime_error e -> isNetworkError e = false.
Proof.
  intros [base name Hbase Hname | expr Hexpr | |]; try reflexivity.
  - simpl in Hbase, Hname.
    repeat (destruct Hbase as [<- | Hbase]; [| try contradiction]);
      repeat (destruct Hname as [<- | Hname]; [reflexivity |]); contradiction.
  - simpl in Hexpr.
    repeat (destruct Hexpr as [<- | Hexpr]; [reflexivity |]). contradiction.
Qed.

(** Solves [runtime_error e] for an error thrown by a property read. *)
Ltac read_throws H :=
  apply get_throws in H; destruct H as [-> | ->];
  (apply read_error; simpl; tauto).

Lemma parseInt_throws (v : js_value) (e : thrown) :
  parseInt v = Throw e -> runtime_error e.
Proof.
  unfold parseInt. intros H. find_throw H; [| discriminate H].
  apply ToString_throws in H. subst e. constructor.
Qed.

Lemma txAmount_throws (tx : js_value) (e : thrown) :
  txAmount tx = Throw e -> runtime_error e.
Proof.
  unfold txAmount. intros H.
  find_throw H; [read_throws H |].
  find_throw H; [exact (parseInt_throws _ _ H) |].
  find_throw H; [read_throws H |].
  find_throw H; [exact (parseInt_throws _ _ H) | discriminate H].
Qed.

Lemma txTime_throws (tx : js_value) (e : thrown) :
  txTime tx = Throw e -> runtime_error e.
Proof.
  unfold txTime. intros H.
  find_throw H; [read_throws H |].
  find_throw H; [exact (parseInt_throws _ _ H) | discriminate H].
Qed.

Lemma toISOString_throws (date : option Z) (e : thrown) :
  toISOString date = Throw e -> runtime_error e.
Proof.
  destruct date; simpl; intros H; [discriminate H |].
  injection H as <-. constructor.
Qed.

Lemma processTx_throws (address expectedAmount : string) (now : Z) (tx : js_value)
    (e : thrown) :
  processTx address expectedAmount now tx = Throw e -> runtime_error e.
Proof.
  unfold processTx. intros H.
  find_throw H; [exact (txAmount_throws _ _ H) |].
  find_throw H; [exact (txTime_throws _ _ H) |].
  find_throw H; [read_throws H |].
  find_throw H.
  { destruct a1; simpl in H; try discriminate H; injection H as <-;
      first [apply read_error; simpl; tauto | apply call_error; simpl; tauto]. }
  find_throw H; [read_throws H |].
  find_throw H; [read_throws H |].
  find_throw H; [exact (toISOString_throws _ _ H) |].
  find_throw H; [read_throws H |].
  find_throw H; [read_throws H | discriminate H].
Qed.

Lemma reportTx_throws (tx : js_value) (e : thrown) :
  reportTx tx = Throw e -> runtime_error e.
Proof.
  unfold reportTx. intros H.
  find_throw H; [read_throws H |].
  find_throw H; [read_throws H |].
  find_throw H; [read_throws H |].
  find_throw H; [exact (txAmount_throws _ _ H) |].
  find_throw H; [exact (txTime_throws _ _ H) |].
  find_throw H; [exact (toISOString_throws _ _ H) |].
  find_throw H; [read_throws H | discriminate H].
Qed.

Lemma judge_throws (w : World) (address expectedAmount : string) (data : js_value)
    (e : thrown) :
  judge w address expectedAmount data = Throw e -> runtime_error e.
Proof.
  unfold judge. intros H.
  find_throw H; [read_throws H |].
  find_throw H; [read_throws H |].
  destruct (_ && _); [| discriminate H].
  find_throw H; [| discriminate H].
  apply mapM_from_thrower in H. destruct H as (k & tx & H).
  exact (processTx_throws _ _ _ _ _ H).
Qed.

Lemma transactions_throws (result : js_value) (e : thrown) :
  transactions result = Throw e -> runtime_error e.
Proof.
  unfold transactions. destruct (truthy result); [| discriminate].
  destruct result; intros H;
    try (injection H as <-; apply call_error; simpl; tauto).
  find_throw H; [| discriminate H].
  apply mapM_from_thrower in H. destruct H as (k & tx & H).
  exact (reportTx_throws _ _ H).
Qed.

(** What the [try] block throws is a runtime error of the processing or
    of the shaping. *)
Lemma check_throws (w : World) (address expectedAmount : string) (error : thrown) :
  fst (check w address expectedAmount) = Throw error -> runtime_error error.
Proof.
  unfold check.
  destruct (truthy (data _)) eqn:Ht; [| discriminate].
  rewrite (respond_truthy w address expectedAmount _ Ht).
  destruct (judge w address expectedAmount _) as [verdict | e] eqn:Hj.
  - cbn [fst]. intros H. find_throw H; [| discriminate H].
    exact (transactions_throws _ _ H).
  - cbn [fst]. intros H. injection H as <-. exact (judge_throws _ _ _ _ _ Hj).
Qed.

(** X3. An error that escapes the [try] block is never one of the
    network's: every [fetch] stands inside an inner [try], so what reaches
    the top-level catch is a runtime error of the processing or of the
    shaping, and it is reported with [manualMode: false] and the message
    "Request failed".  A response with [manualMode: true] is therefore
    always the manual mode report of line 102. *)
Theorem network_errors_never_reach_the_catch :
  (forall (w : World) (address expectedAmount : string) (error : thrown),
     address <> "" -> expectedAmount <> "" ->
     fst (check w address expectedAmount) = Throw error ->
     let out :=
       GET w {| address_param := Some address; amount_param := Some expectedAmount |} in
     runtime_error error
     /\ isNetworkError error = false
     /\ field "manualMode" (json (reply out)) = JBool false
     /\ field "message" (field "apiStatus" (json (reply out))) = JString "Request failed")
  /\ (forall (w : World) (request : Request),
        field "manualMode" (json (reply (GET w request))) = JBool true ->
        exists address lastError,
          address_param request = Some address
          /\ reply (GET w request)
             = manual_mode address (etherscanApiKey w) lastError).
Proof.
  pose proof check_throws as Hruntime.
  split.
  - intros w address expectedAmount error Ha He Hthrow out.
    pose proof (Hruntime w address expectedAmount error Hthrow) as Hr.
    pose proof (runtime_error_is_no_network_error error Hr) as Hn.
    subst out. rewrite (GET_present w address expectedAmount Ha He).
    cbn [reply]. rewrite Hthrow. simpl. rewrite Hn. repeat split; assumption.
  - intros w [[address |] [expectedAmount |]];
      try (unfold GET; simpl; discriminate).
    destruct (string_dec address "") as [-> | Ha];
      [unfold GET; simpl; discriminate |].
    destruct (string_dec expectedAmount "") as [-> | He].
    { unfold GET. simpl. rewrite orb_true_r. simpl. discriminate. }
    pose proof (GET_cases w address expectedAmount Ha He) as Hcases.
    cbv zeta in Hcases.
    destruct Hcases as [[_ ->] | [(_ & error & _ & Hthrow & ->)
                                 | [(_ & verdict & error & _ & _ & Hthrow & ->)
                                   | (_ & verdict & txs & _ & _ & ->)]]];
      cbn [reply address_param].
    + intros _. eauto.
    + simpl. rewrite (runtime_error_is_no_network_error _ (Hruntime _ _ _ _ Hthrow)).
      discriminate.
    + simpl. rewrite (runtime_error_is_no_network_error _ (Hruntime _ _ _ _ Hthrow)).
      discriminate.
    + simpl. discriminate.
Qed.

(** ** The verdict *)

(** What lines 132-177 leave in [confirmed] and [matchingTransactions]. *)
Lemma judge_verdict (w : World) (address expectedAmount : string) (data : js_value)
    (verdict : Verdict) :
  judge w address expectedAmount data = Normal verdict ->
  confirmed verdict = (0 <? length (matchingTransactions verdict))%nat
  /\ forall p,
       In p (matchingTransactions verdict) ->
       isRecent p = true /\ isToAddress p = true /\ isExpectedAmount p = true
       /\ exists i tx, processTx address expectedAmount (Date_now w i) tx = Normal p.
Proof.
  unfold judge. intros H. invert_binds.
  destruct (_ && _).
  - invert_binds. subst verdict. simpl. split; [reflexivity |].
    intros p Hp. unfold matching in Hp. apply filter_In in Hp. destruct Hp as [Hin Hflags].
    apply andb_prop in Hflags. destruct Hflags as [Hflags Hexp].
    apply andb_prop in Hflags. destruct Hflags as [Hrec Haddr].
    repeat split; try assumption.
    apply In_nth_error in Hin. destruct Hin as [k Hk].
    destruct (mapM_from_nth_inv _ _ _ _ Ha1 k p Hk) as (tx & _ & Hproc).
    now exists (0 + k)%nat, tx.
  - injection H as <-. simpl. split; [reflexivity |]. intros p [].
Qed.

Lemma flagged_processed_value (p : Processed) :
  isRecent p = true -> isToAddress p = true -> isExpectedAmount p = true ->
  flagged (processed_value p).
Proof.
  intros Hr Ha He. unfold flagged, processed_value. simpl. now rewrite Hr, Ha, He.
Qed.

(** Solves the statement of X4 for a response that is not confirmed and
    lists no matching transaction. *)
Ltac no_evidence :=
  split;
  [ split; [discriminate | intros (? & ? & H); discriminate H]
  | intros ? H; discriminate H ].

(** X4. In every response, [confirmed] is true exactly when
    [debugInfo.matchingTransactions] is a non-empty array, and every entry
    of that array carries the three flags [isRecent], [isToAddress] and
    [isExpectedAmount], all true: a confirmation always comes with the
    transactions that justify it. *)
Theorem confirmed_comes_with_its_evidence (w : World) (request : Request) :
  let response := json (reply (GET w request)) in
  let evidence := field "matchingTransactions" (field "debugInfo" response) in
  (field "confirmed" response = JBool true
   <-> exists tx txs, evidence = JArray (tx :: txs))
  /\ (forall txs, evidence = JArray txs -> Forall flagged txs).
Proof.
  cbv zeta.
  destruct request as [[address |] [expectedAmount |]];
    try (unfold GET; simpl; no_evidence).
  destruct (string_dec address "") as [-> | Ha];
    [unfold GET; simpl; no_evidence |].
  destruct (string_dec expectedAmount "") as [-> | He].
  { unfold GET. simpl. rewrite orb_true_r. simpl. no_evidence. }
  pose proof (GET_cases w address expectedAmount Ha He) as Hcases.
  cbv zeta in Hcases.
  destruct Hcases as [[_ ->] | [(_ & error & _ & _ & ->)
                               | [(_ & verdict & error & _ & _ & _ & ->)
                                 | (_ & verdict & txs & Hj & _ & ->)]]];
    cbn [reply]; try (simpl; no_evidence).
  destruct (judge_verdict w address expectedAmount _ verdict Hj) as [Hc Hflags].
  simpl. rewrite Hc. split; [split |].
  - intros H. injection H as H.
    destruct (matchingTransactions verdict) as [| p ps]; [discriminate H |].
    simpl. eauto.
  - intros (tx & l & H). injection H as H.
    destruct (matchingTransactions verdict) as [| p ps]; [discriminate H | reflexivity].
  - intros l H. injection H as <-.
    apply Forall_forall. intros tx Htx. apply in_map_iff in Htx.
    destruct Htx as (p & <- & Hp).
    destruct (Hflags p Hp) as (Hr & Hto & He' & _).
    now apply flagged_processed_value.
Qed.

(** The comparison with a requested amount that is no number fails, for
    every transaction amount. *)
Lemma expected_nan (amount : float) (expectedAmount : string) :
  parseFloat expectedAmount = nan -> expected amount expectedAmount = false.
Proof.
  intros H. unfold expected. rewrite H.
  rewrite FloatAxioms.ltb_spec, FloatAxioms.abs_spec, FloatAxioms.sub_spec.
  change (Prim2SF nan) with S754_nan.
  now destruct (Prim2SF amount) as [[] | [] | |].
Qed.

(** X6. A request whose amount does not start with a number ([parseFloat]
    gives [NaN]) is never confirmed, whatever the explorer answers. *)
Theorem amount_that_is_no_number_is_never_confirmed (w : World) (request : Request)
    (amount : string) :
  amount_param request = Some amount ->
  parseFloat amount = nan ->
  field "confirmed" (json (reply (GET w request))) = JBool false.
Proof.
  destruct request as [[address |] expectedAmount]; simpl; intros -> Hnan;
    [| reflexivity].
  destruct (string_dec address "") as [-> | Ha]; [reflexivity |].
  destruct (string_dec amount "") as [-> | He].
  { unfold GET. simpl. now rewrite orb_true_r. }
  pose proof (GET_cases w address amount Ha He) as Hcases.
  cbv zeta in Hcases.
  destruct Hcases as [[_ ->] | [(_ & error & _ & _ & ->)
                               | [(_ & verdict & error & _ & _ & _ & ->)
                                 | (_ & verdict & txs & Hj & _ & ->)]]];
    try reflexivity.
  destruct (judge_verdict w address amount _ verdict Hj) as [Hc Hflags].
  simpl. rewrite Hc.
  destruct (matchingTransactions verdict) as [| p ps]; [reflexivity |].
  destruct (Hflags p (or_introl eq_refl)) as (_ & _ & Hexp & i & tx & Hproc).
  apply processTx_normal in Hproc.
  destruct Hproc as (a & t & r & _ & _ & _ & _ & _ & _ & Hexp').
  rewrite Hexp', (expected_nan a amount Hnan) in Hexp. discriminate Hexp.
Qed.

(** ** The case of the address *)

Lemma mapM_from_ext {A B : Type} (f g : nat -> A -> completion B) (l : list A) :
  (forall i a, f i a = g i a) ->
  forall i, mapM_from f i l = mapM_from g i l.
Proof.
  intros Hfg. induction l as [| x l IH]; intros i; simpl; [reflexivity |].
  now rewrite Hfg, IH.
Qed.

Lemma processTx_case (address address' expectedAmount : string) (now : Z) (tx : js_value) :
  toLowerCase address = toLowerCase address' ->
  processTx address expectedAmount now tx = processTx address' expectedAmount now tx.
Proof.
  intros H. unfold processTx.
  destruct (txAmount tx); simpl; [| reflexivity].
  destruct (txTime tx); simpl; [| reflexivity].
  destruct (get tx "to"); simpl; [| reflexivity].
  destruct (call_toLowerCase "tx.to" _); simpl; [| reflexivity].
  destruct (get tx "hash"); simpl; [| reflexivity].
  destruct (get tx "from"); simpl; [| reflexivity].
  destruct (toISOString _); simpl; [| reflexivity].
  destruct (get tx "confirmations"); simpl; [| reflexivity].
  destruct (get tx "blockNumber"); simpl; [| reflexivity].
  now rewrite H.
Qed.

(** X5. The judgement of an explorer body depends on the requested
    address only up to the case of its letters: two addresses with the same
    lower-case form get the same [confirmed], the same matching
    transactions and the same transfer-derived balance. *)
Theorem judgement_ignores_the_case_of_the_address (w : World)
    (address address' expectedAmount : string) (data : js_value) :
  toLowerCase address = toLowerCase address' ->
  judge w address expectedAmount data = judge w address' expectedAmount data.
Proof.
  intros H. unfold judge.
  destruct (get data "status"); simpl; [| reflexivity].
  destruct (get data "result"); simpl; [| reflexivity].
  destruct (_ && _); [| reflexivity].
  unfold processedTxs.
  rewrite (mapM_from_ext
             (fun i tx => processTx address expectedAmount (Date_now w i) tx)
             (fun i tx => processTx address' expectedAmount (Date_now w i) tx)).
  - reflexivity.
  - intros i tx. now apply processTx_case.
Qed.

(** ** Strings *)

Lemma append_assoc (s t u : string) : (s ++ t) ++ u = s ++ (t ++ u).
Proof.
  induction s as [| c s IH]; simpl; [reflexivity | now rewrite IH].
Qed.

Lemma append_nil_r (s : string) : s ++ "" = s.
Proof.
  induction s as [| c s IH]; simpl; [reflexivity | now rewrite IH].
Qed.

Lemma length_append (s t : string) :
  String.length (s ++ t) = (String.length s + String.length t)%nat.
Proof.
  induction s as [| c s IH]; simpl; [reflexivity | now rewrite IH].
Qed.

Lemma prefix_refl (s : string) : String.prefix s s = true.
Proof.
  induction s as [| c s IH]; simpl; [reflexivity |].
  destruct (ascii_dec c c) as [_ | H]; [exact IH | now contradiction H].
Qed.

Lemma prefix_append (p t : string) : String.prefix p (p ++ t) = true.
Proof.
  induction p as [| c p IH]; simpl; [now destruct t |].
  destruct (ascii_dec c c) as [_ | H]; [exact IH | now contradiction H].
Qed.

(** A string that is no prefix of [s], and is no longer than [s], is no
    prefix of [s] extended. *)
Lemma prefix_false_append (p s t : string) :
  String.prefix p s = false ->
  (String.length p <= String.length s)%nat ->
  String.prefix p (s ++ t) = false.
Proof.
  revert s. induction p as [| c p IH]; intros s; [now destruct s |].
  destruct s as [| d s]; simpl; [lia |].
  destruct (ascii_dec c d); [| reflexivity].
  intros H Hlen. apply IH; [exact H | lia].
Qed.

Lemma drop_append (s t : string) : drop (String.length s) (s ++ t) = t.
Proof.
  induction s as [| c s IH]; simpl; [now destruct t | exact IH].
Qed.

Lemma drop_length (s : string) : drop (String.length s) s = "".
Proof.
  induction s as [| c s IH]; simpl; [reflexivity | exact IH].
Qed.

Lemma but_last_append (s : string) :
  s <> "" -> exists c, s = but_last s ++ String c "".
Proof.
  induction s as [| c s IH]; intros H; [now contradiction H |].
  destruct s as [| d s']; [now exists c |].
  destruct IH as [e He]; [discriminate |].
  exists e. simpl in *. now rewrite <- He.
Qed.

Lemma replace_step (pat rep : string) (c : ascii) (s : string) :
  replace pat rep (String c s)
  = if String.prefix pat (String c s)
    then rep ++ drop (String.length pat) (String c s)
    else String c (replace pat rep s).
Proof.
  reflexivity.
Qed.

Lemma split_head_step (sep : string) (c : ascii) (s : string) :
  split_head sep (String c s)
  = if String.prefix sep (String c s) then "" else String c (split_head sep s).
Proof.
  reflexivity.
Qed.

(** Where [pat] stands at the end of a string and nowhere before, it is
    what [replace] replaces. *)
Lemma replace_at_end (pat rep stem : string) :
  pat <> "" ->
  includes (stem ++ but_last pat) pat = false ->
  replace pat rep (stem ++ pat) = stem ++ rep.
Proof.
  intros Hpat. destruct (but_last_append pat Hpat) as [l Hl].
  induction stem as [| c stem IH]; intros H.
  - simpl. destruct pat as [| d pat]; [now contradiction Hpat |].
    rewrite replace_step, prefix_refl.
    now rewrite drop_length, append_nil_r.
  - simpl in H. apply orb_false_iff in H. destruct H as [Hprefix Hrest].
    simpl append. rewrite replace_step.
    replace (String c (stem ++ pat))
      with (String c (stem ++ but_last pat) ++ String l "")
      by (simpl; now rewrite append_assoc, <- Hl).
    rewrite prefix_false_append.
    + f_equal. exact (IH Hrest).
    + exact Hprefix.
    + simpl. rewrite length_append.
      rewrite Hl at 1. rewrite length_append. simpl. lia.
Qed.

(** Where [sep] stands after [s] and nowhere before, [s] is what precedes
    its first occurrence. *)
Lemma split_head_at (sep s t : string) :
  sep <> "" ->
  includes (s ++ but_last sep) sep = false ->
  split_head sep (s ++ sep ++ t) = s.
Proof.
  intros Hsep. destruct (but_last_append sep Hsep) as [l Hl].
  assert (sep ++ t = but_last sep ++ String l t) as Hl'
    by (rewrite Hl at 1; now rewrite append_assoc).
  induction s as [| c s IH]; intros H.
  - simpl. destruct sep as [| d sep]; [now contradiction Hsep |].
    change ((String d sep ++ t)) with (String d (sep ++ t)).
    rewrite split_head_step.
    change (String d (sep ++ t)) with (String d sep ++ t).
    now rewrite prefix_append.
  - simpl in H. apply orb_false_iff in H. destruct H as [Hprefix Hrest].
    simpl append. rewrite split_head_step.
    replace (String c (s ++ sep ++ t))
      with (String c (s ++ but_last sep) ++ (String l "" ++ t))
      by (simpl; now rewrite append_assoc, Hl').
    rewrite prefix_false_append.
    + f_equal. exact (IH Hrest).
    + exact Hprefix.
    + simpl. rewrite length_append.
      rewrite Hl at 1. rewrite length_append. simpl. lia.
Qed.

(** ** The URLs *)

Lemma apiEndpoints_stems (address key : string) :
  apiEndpoints address key
  = [ endpoint_stem "api.bscscan.com" address ++ key;
      endpoint_stem "api-bsc.etherscan.io" address ++ key ].
Proof.
  unfold apiEndpoints, endpoint_stem.
  now rewrite !append_assoc.
Qed.

Lemma etherscanApiKey_not_empty (w : World) : etherscanApiKey w <> "".
Proof.
  unfold etherscanApiKey. destruct (BSCSCAN_API_KEY w) as [key |]; [| discriminate].
  destruct (String.eqb key "") eqn:H; [discriminate |].
  now apply String.eqb_neq.
Qed.

(** X8. The balance query is built from the transfer query it follows: it
    addresses the same host, the same contract and the same address, asks
    for [tokenbalance] with [tag=latest], and keeps nothing of what stood
    after [&page=], so that it does not depend on the API key.  This holds
    for every address in which [&page=] does not occur. *)
Theorem balance_query_is_built_from_the_endpoint (address key : string) :
  includes (address ++ "&page") "&page=" = false ->
  map balanceUrl (apiEndpoints address key)
  = [ balance_query "api.bscscan.com" address;
      balance_query "api-bsc.etherscan.io" address ].
Proof.
  intros H.
  assert (split_head "&page=" (address ++ "&page=" ++ "1&offset=20&sort=desc&apikey=" ++ key)
          = address) as Hcut by (apply split_head_at; [discriminate | exact H]).
  unfold apiEndpoints, balanceUrl, balance_query, usdtContract.
  cbn -[split_head]. cbn.
  change ("&page=" ++ "1&offset=20&sort=desc&apikey=" ++ key)
    with (String "&" (String "p" (String "a" (String "g" (String "e" (String "="
          ("1&offset=20&sort=desc&apikey=" ++ key))))))) in Hcut.
  cbn in Hcut.
  rewrite Hcut. reflexivity.
Qed.

(** X7. The endpoints the response shows are redacted: in the manual mode
    report both tested endpoints, and in the shaped report the working
    endpoint, stand with [***] in place of the value of the [apikey]
    parameter.  [replace] redacts the first occurrence of the key's text,
    so this holds when that text does not occur in the URL before the
    [apikey] parameter. *)
Theorem api_key_is_redacted (w : World) (address expectedAmount : string) :
  address <> "" -> expectedAmount <> "" ->
  (forall host,
     In host ["api.bscscan.com"; "api-bsc.etherscan.io"] ->
     includes (endpoint_stem host address ++ but_last (etherscanApiKey w))
              (etherscanApiKey w) = false) ->
  let out :=
    GET w {| address_param := Some address; amount_param := Some expectedAmount |} in
  let debugInfo := field "debugInfo" (json (reply out)) in
  (field "manualMode" (json (reply out)) = JBool true ->
   field "testedEndpoints" debugInfo
   = JArray [ JString (endpoint_stem "api.bscscan.com" address ++ "***");
              JString (endpoint_stem "api-bsc.etherscan.io" address ++ "***") ])
  /\ (field "workingEndpoint" debugInfo = JUndefined
      \/ exists host,
           In host ["api.bscscan.com"; "api-bsc.etherscan.io"]
           /\ field "workingEndpoint" debugInfo
              = JString (endpoint_stem host address ++ "***")).
Proof.
  intros Ha He Hkey out debugInfo.
  assert (forall host,
            In host ["api.bscscan.com"; "api-bsc.etherscan.io"] ->
            replace (etherscanApiKey w) "***" (endpoint_stem host address ++ etherscanApiKey w)
            = endpoint_stem host address ++ "***") as Hredact.
  { intros host Hhost. apply replace_at_end;
      [apply etherscanApiKey_not_empty | exact (Hkey host Hhost)]. }
  pose proof (GET_cases w address expectedAmount Ha He) as Hcases.
  cbv zeta in Hcases. fold out in Hcases.
  pose proof (truthy_data_has_endpoint w (apiEndpoints address (etherscanApiKey w)))
    as Hloop. cbv zeta in Hloop.
  subst debugInfo.
  destruct Hcases as [[_ ->] | [(_ & error & _ & Hthrow & ->)
                               | [(_ & verdict & error & _ & _ & Hthrow & ->)
                                 | (Ht & verdict & txs & _ & _ & ->)]]];
    cbn [reply].
  - split; [| now left]. intros _.
    unfold manual_mode. cbn [json field lookup String.eqb Ascii.eqb Bool.eqb].
    rewrite apiEndpoints_stems. cbn [map].
    rewrite !Hredact by (simpl; tauto). reflexivity.
  - pose proof (runtime_error_is_no_network_error _ (check_throws _ _ _ _ Hthrow)) as Hn.
    split; [simpl; rewrite Hn; discriminate | now left].
  - pose proof (runtime_error_is_no_network_error _ (check_throws _ _ _ _ Hthrow)) as Hn.
    split; [simpl; rewrite Hn; discriminate | now left].
  - split; [simpl; discriminate |]. right.
    destruct (Hloop Ht) as (before & endpoint & after & Hurls & Hw & _).
    rewrite Hw.
    assert (In endpoint (apiEndpoints address (etherscanApiKey w))) as Hin
      by (rewrite Hurls; apply in_or_app; right; now left).
    rewrite apiEndpoints_stems in Hin.
    destruct Hin as [<- | [<- | []]].
    + exists "api.bscscan.com". split; [simpl; tauto |].
      unfold report. cbn [json field lookup String.eqb Ascii.eqb Bool.eqb].
      now rewrite Hredact by (simpl; tauto).
    + exists "api-bsc.etherscan.io". split; [simpl; tauto |].
      unfold report. cbn [json field lookup String.eqb Ascii.eqb Bool.eqb].
      now rewrite Hredact by (simpl; tauto).
Qed.

(** ** A result that is no array *)

(** X9. When the first parsed body is truthy and its [result] is truthy
    but no array (the explorer's error replies carry a string there), the
    balance is still requested, and then the shaping of line 214 throws:
    the response is the failure report, with "Request failed", balance 0,
    and the runtime error's message in place of the upstream status,
    message and result. *)
Theorem result_that_is_no_array_fails_the_request (w : World)
    (address expectedAmount endpoint : string) (body : js_value) :
  address <> "" -> expectedAmount <> "" ->
  first_parsed w (apiEndpoints address (etherscanApiKey w)) = Some (endpoint, body) ->
  truthy body = true ->
  truthy (field "result" body) = true ->
  isArray (field "result" body) = false ->
  let out :=
    GET w {| address_param := Some address; amount_param := Some expectedAmount |} in
  let error :=
    match field "result" body with
    | JString _ => not_a_function "data.result.slice(...).map"
    | _ => not_a_function "data.result.slice"
    end in
  reply out = request_failed error
  /\ field "message" (field "apiStatus" (json (reply out))) = JString "Request failed"
  /\ field "result" (field "apiStatus" (json (reply out))) = JString (errorMessage error)
  /\ field "balance" (json (reply out)) = JNumber 0
  /\ exists before after,
       apiEndpoints address (etherscanApiKey w) = (before ++ endpoint :: after)%list
       /\ outbound out = (before ++ [endpoint; balanceUrl endpoint])%list.
Proof.
  intros Ha He Hfirst Ht Hresult Harray out error.
  destruct (check_first_parsed w address expectedAmount endpoint body Hfirst Ht)
    as (fetched & Hd & Hw & (before & after & Hurls & Hreq) & Hcheck).
  assert (transactions (field "result" body) = Throw error) as Hthrow.
  { subst error. unfold transactions. rewrite Hresult.
    destruct (field "result" body); try reflexivity; discriminate. }
  assert (out = {| reply := request_failed error;
                   outbound := (before ++ [endpoint; balanceUrl endpoint])%list |}) as Hout.
  { subst out. rewrite (GET_present w address expectedAmount Ha He), Hcheck.
    rewrite respond_truthy by now rewrite Hd.
    rewrite Hd, Hw.
    rewrite judge_no_listing by (try assumption; rewrite Harray; apply andb_false_r).
    cbn [fst snd]. rewrite Hthrow, refine_calls, Hreq. cbn [bind].
    now rewrite <- app_assoc. }
  rewrite Hout. cbn [reply outbound].
  assert (isNetworkError error = false) as Hn
    by (subst error; destruct (field "result" body); reflexivity).
  split; [reflexivity |]. split; [simpl; now rewrite Hn |].
  split; [reflexivity |]. split; [reflexivity |].
  exists before, after. now split.
Qed.

End Handler.

(* ================================================================= *)
(** * The properties at work *)

(** The handler and the notions of the properties on the engine of the
    examples. *)
Abbreviation GET_ref := (GET Math_pow_ref Number_toString_ref).
Abbreviation Matching_ref := (Matching Math_pow_ref Number_toString_ref).
Abbreviation normalisable_ref := (normalisable Math_pow_ref Number_toString_ref).

(** ** The runtime fragment on known values *)

Example parseInt_reads_a_prefix :
  parseInt_string " -12px" = (-12)%float
  /\ parseInt_string "0x1f" = 31%float
  /\ PrimFloat.is_nan (parseInt_string "soon") = true.
Proof. repeat split. Qed.

Example parseFloat_rounds_to_nearest :
  parseFloat "25.5" = 25.5%float
  /\ parseFloat "1.e2abc" = 100%float
  /\ parseFloat "0.1" = (1 / 10)%float
  /\ PrimFloat.is_nan (parseFloat ".") = true.
Proof. repeat split. Qed.

Example Date_has_a_range :
  Date_of (parseInt_string "1700000000" * 1000)%float = Some 1700000000000
  /\ Date_of (parseInt_string "8640000000000" * 1000)%float = Some 8640000000000000
  /\ Date_of (parseInt_string "8640000000001" * 1000)%float = None
  /\ Date_of (parseInt_string "" * 1000)%float = None.
Proof. repeat split. Qed.

Example toISOString_of_known_instants :
  iso_string 0 = "1970-01-01T00:00:00.000Z"
  /\ iso_string 951782400000 = "2000-02-29T00:00:00.000Z"
  /\ iso_string 1700000000000 = "2023-11-14T22:13:20.000Z"
  /\ iso_string (-1) = "1969-12-31T23:59:59.999Z"
  /\ iso_string 8640000000000000 = "+275760-09-13T00:00:00.000Z".
Proof. repeat split. Qed.

Example balanceUrl_of_the_first_endpoint :
  balanceUrl first_endpoint = first_balance_query.
Proof. reflexivity. Qed.

(** ** The handler on concrete requests *)

(** C1 at work: one transfer of 25.5 USDT to the payee, ten minutes old. *)
Lemma confirmed_iff_matching_transaction_witness :
  let w := world 1700000600000 (listing [transfer_25_5]) down balance_2_5 in
  (forallb normalisable_ref [transfer_25_5] = true ->
   (field "confirmed" (json (reply (GET_ref w request_25_5))) = JBool true
    <-> exists i tx,
          nth_error [transfer_25_5] i = Some tx /\ Matching_ref w payee "25.5" i tx))
  /\ (forallb normalisable_ref [transfer_25_5] = false ->
      field "confirmed" (json (reply (GET_ref w request_25_5))) = JBool false).
Proof.
  intros w.
  apply (confirmed_iff_matching_transaction Math_pow_ref Number_toString_ref
           w payee "25.5" first_endpoint
           (explorer_body "1" "OK" (JArray [transfer_25_5])) [transfer_25_5]).
  - discriminate.
  - discriminate.
  - reflexivity.
  - reflexivity.
  - reflexivity.
Defined.

(** C1 as stated fails: the first transaction of the listing satisfies the
    three conditions, the second lacks its recipient, and [confirmed] is
    false. *)
Lemma confirmed_false_despite_matching_transaction :
  let w := world 1700000600000 (listing [transfer_25_5; transfer_without_to])
                 down balance_2_5 in
  first_parsed w (apiEndpoints payee (etherscanApiKey w))
  = Some (first_endpoint,
          explorer_body "1" "OK" (JArray [transfer_25_5; transfer_without_to]))
  /\ Matching_ref w payee "25.5" 0 transfer_25_5
  /\ field "confirmed" (json (reply (GET_ref w request_25_5))) = JBool false.
Proof.
  intros w. split; [reflexivity |]. split; [| reflexivity].
  exists 25.5%float, 1700000000000, "0xabc0000000000000000000000000000000000001".
  repeat split.
Qed.

(** C9 at work: a request without its address. *)
Lemma missing_parameter_is_rejected_witness :
  let w := world 1700000600000 down down down in
  let out := GET_ref w {| address_param := None; amount_param := Some "25.5" |} in
  http_status (reply out) = 400%N
  /\ field "confirmed" (json (reply out)) = JBool false
  /\ field "address" (field "debugInfo" (json (reply out))) = JNull
  /\ field "expectedAmount" (field "debugInfo" (json (reply out))) = JString "25.5"
  /\ outbound out = [].
Proof.
  intros w.
  apply (missing_parameter_is_rejected Math_pow_ref Number_toString_ref w
           {| address_param := None; amount_param := Some "25.5" |}).
  left. reflexivity.
Defined.

(** C6 at work: the listing with a transfer that lacks its recipient makes
    the processing throw a [TypeError], which is reported as a failed
    request, not as a network failure; the [catch] block takes an error
    that mentions "fetch failed" for a network failure, and a thrown value
    that is no error for none. *)
Lemma uncaught_error_is_reported_witness :
  let w := world 1700000600000 (listing [transfer_25_5; transfer_without_to])
                 down balance_2_5 in
  let out := GET_ref w request_25_5 in
  (reply out = request_failed (cannot_read "undefined" "toLowerCase")
   /\ http_status (reply out) = 200%N
   /\ field "confirmed" (json (reply out)) = JBool false
   /\ field "balance" (json (reply out)) = JNumber 0
   /\ field "transactions" (json (reply out)) = JArray []
   /\ field "manualMode" (json (reply out))
      = JBool (isNetworkError (cannot_read "undefined" "toLowerCase"))
   /\ (field "manualMode" (json (reply out)) = JBool true
       <-> mentions_network (cannot_read "undefined" "toLowerCase")))
  /\ field "manualMode" (json (request_failed (ErrorObject "TypeError: fetch failed")))
     = JBool true
  /\ field "manualMode" (json (request_failed NotAnError)) = JBool false.
Proof.
  intros w. split; [| split].
  - apply (proj1 (proj2 (uncaught_error_is_reported Math_pow_ref Number_toString_ref))
             w payee "25.5" (cannot_read "undefined" "toLowerCase")).
    + discriminate.
    + discriminate.
    + reflexivity.
  - destruct (proj1 (uncaught_error_is_reported Math_pow_ref Number_toString_ref)
                (ErrorObject "TypeError: fetch failed")) as (_ & _ & _ & _ & Hyes & _).
    apply Hyes. exists "TypeError: fetch failed". split; [reflexivity |].
    left. reflexivity.
  - destruct (proj1 (uncaught_error_is_reported Math_pow_ref Number_toString_ref)
                NotAnError) as (_ & _ & _ & _ & _ & Hno).
    apply Hno. intros (message & Hm & _). discriminate Hm.
Defined.

(** C10 at work: a transfer dated more than three years after the clock
    reading confirms the payment. *)
Lemma recency_has_no_lower_bound_witness :
  let w := world 1600000000000 (listing [transfer_25_5]) down balance_2_5 in
  Date_now w 0 <= 1700000000000
  /\ field "confirmed" (json (reply (GET_ref w request_25_5))) = JBool true.
Proof.
  intros w. split; [vm_compute; discriminate |].
  apply (proj2 (proj2 (recency_has_no_lower_bound Math_pow_ref Number_toString_ref))
           w payee "25.5" first_endpoint
           (explorer_body "1" "OK" (JArray [transfer_25_5])) [transfer_25_5]
           0%nat transfer_25_5 25.5%float 1700000000000
           "0xabc0000000000000000000000000000000000001").
  - discriminate.
  - discriminate.
  - reflexivity.
  - reflexivity.
  - reflexivity.
  - reflexivity.
  - reflexivity.
  - reflexivity.
  - reflexivity.
  - reflexivity.
  - vm_compute. discriminate.
  - reflexivity.
  - reflexivity.
Defined.

(** C10 as stated fails: a transfer exactly 3600 seconds old, not more, to
    the requested address and of the expected amount, is not recent and
    does not confirm the payment. *)
Lemma transfer_3600_seconds_old_is_not_recent :
  let w := world 1700003600000 (listing [transfer_25_5]) down balance_2_5 in
  txTime Number_toString_ref transfer_25_5 = Normal (Some 1700000000000)
  /\ Date_now w 0 - 1700000000000 = 3600 * 1000
  /\ recent (Date_now w 0) (Some 1700000000000) = false
  /\ to_address payee transfer_25_5 = true
  /\ expected (amount_of Math_pow_ref Number_toString_ref transfer_25_5) "25.5" = true
  /\ field "confirmed" (json (reply (GET_ref w request_25_5))) = JBool false.
Proof.
  intros w. repeat split.
Qed.

(** C8 at work: of three transfers, two of 25.5 USDT to the requested
    address and one of 4 USDT from it, the two are summed; the balance
    query fails, and 51 is the balance of the report. *)
Lemma transfer_balance_is_incoming_sum_witness :
  let items := [transfer_25_5; transfer_to_payer; transfer_25_5] in
  let w := world 1700000600000 (listing items) down down in
  let body := explorer_body "1" "OK" (JArray items) in
  sum (map (listed_amount Math_pow_ref Number_toString_ref)
           (filter (to_address payee) items)) = 51%float
  /\ field "balance" (json (reply (GET_ref w request_25_5))) = JNumber 51
  /\ exists verdict,
       judge Math_pow_ref Number_toString_ref w payee "25.5" body = Normal verdict
       /\ balance verdict = 51%float.
Proof.
  intros items w body.
  destruct (proj1 (transfer_balance_is_incoming_sum Math_pow_ref Number_toString_ref
                     w payee "25.5" body items eq_refl eq_refl) eq_refl)
    as (verdict & Hjudge & Hbalance & Hreport).
  split; [reflexivity |]. split.
  - apply (Hreport first_endpoint).
    + discriminate.
    + discriminate.
    + reflexivity.
    + left. reflexivity.
  - exists verdict. split; [exact Hjudge | exact Hbalance].
Defined.

(** C8 as stated fails: the body has status "1" and an array result, its
    first transfer brings 25.5 USDT to the requested address, its second
    lacks its recipient; the processing throws at the second, no
    transfer-derived balance is computed, and the balance of the response
    is 0. *)
Lemma balance_0_despite_incoming_transfer :
  let items := [transfer_25_5; transfer_without_to] in
  let w := world 1700000600000 (listing items) down balance_2_5 in
  let body := explorer_body "1" "OK" (JArray items) in
  first_parsed w (apiEndpoints payee (etherscanApiKey w)) = Some (first_endpoint, body)
  /\ field "status" body = JString "1"
  /\ field "result" body = JArray items
  /\ sum (map (listed_amount Math_pow_ref Number_toString_ref)
              (filter (to_address payee) items)) = 25.5%float
  /\ judge Math_pow_ref Number_toString_ref w payee "25.5" body
     = Throw (cannot_read "undefined" "toLowerCase")
  /\ field "balance" (json (reply (GET_ref w request_25_5))) = JNumber 0.
Proof.
  intros items w body. repeat split.
Qed.

(** C3 at work: the balance query answers 2.5 USDT, and 2.5 is the balance
    of the report. *)
Lemma balance_refinement_witness :
  let w := world 1700000600000 (listing [transfer_25_5]) down balance_2_5 in
  parses w first_balance_query
  = Some (explorer_body "1" "OK" (JString "2500000000000000000"))
  /\ field "balance" (json (reply (GET_ref w request_25_5))) = JNumber 2.5.
Proof.
  intros w. split; [reflexivity |].
  pose (body := explorer_body "1" "OK" (JArray [transfer_25_5])).
  destruct (judge Math_pow_ref Number_toString_ref w payee "25.5" body)
    as [verdict | error] eqn:Hjudge; [| discriminate Hjudge].
  refine (proj1 (proj2 (proj2 (proj2
    (balance_refinement Math_pow_ref Number_toString_ref w payee "25.5" first_endpoint
       body verdict _ _ _ _ _ Hjudge))))
    (explorer_body "1" "OK" (JString "2500000000000000000")) _ _ _ _);
    try reflexivity; discriminate.
Defined.

(** C3 as stated fails: the first host succeeds, the balance query
    succeeds with status "1" and 2.5 USDT, and the balance of the response
    is 0, because the listed transfer has no time and the shaping of the
    report throws. *)
Lemma balance_lost_when_shaping_throws :
  let body := explorer_body "0" "NOTOK" (JArray [transfer_without_timeStamp]) in
  let w := world 1700000600000 (answers body) down balance_2_5 in
  let out := GET_ref w request_25_5 in
  first_parsed w (apiEndpoints payee (etherscanApiKey w)) = Some (first_endpoint, body)
  /\ outbound out = [first_endpoint; first_balance_query]
  /\ fetch w first_balance_query
     = Resolved {| status := 200; statusText := "OK";
                   payload := Parsed (explorer_body "1" "OK"
                                        (JString "2500000000000000000")) |}
  /\ field "balance" (json (reply out)) = JNumber 0
  /\ reply out = request_failed invalid_time.
Proof.
  intros body w out. repeat split.
Qed.

(** C5 at work: the listing of one transfer. *)
Lemma apiStatus_carries_upstream_or_defaults_witness :
  let body := explorer_body "1" "OK" (JArray [transfer_25_5]) in
  let w := world 1700000600000 (answers body) down balance_2_5 in
  let out := GET_ref w request_25_5 in
  let carried name := field name (field "apiStatus" (json (reply out))) in
  http_status (reply out) = 200%N
  /\ (forall name,
        In name ["status"; "message"; "result"] ->
        truthy (field name body) = true -> carried name = field name body)
  /\ (truthy (field "status" body) = false -> carried "status" = JString "0")
  /\ (truthy (field "message" body) = false -> carried "message" = JString "Unknown error")
  /\ (truthy (field "result" body) = false -> carried "result" = JNull).
Proof.
  intros body w.
  apply (apiStatus_carries_upstream_or_defaults Math_pow_ref Number_toString_ref
           w payee "25.5" first_endpoint body).
  - discriminate.
  - discriminate.
  - reflexivity.
  - reflexivity.
  - reflexivity.
Defined.

(** C5 as stated fails: the upstream message is the empty string, and the
    report carries "Unknown error". *)
Lemma apiStatus_replaces_empty_message :
  let body := explorer_body "0" "" (JArray []) in
  let w := world 1700000600000 (answers body) down balance_2_5 in
  let out := GET_ref w request_25_5 in
  first_parsed w (apiEndpoints payee (etherscanApiKey w)) = Some (first_endpoint, body)
  /\ field "message" body = JString ""
  /\ http_status (reply out) = 200%N
  /\ field "message" (field "apiStatus" (json (reply out))) = JString "Unknown error".
Proof.
  intros body w out. repeat split.
Qed.

(** C7 at work: a listing of twelve transfers is cut to its first ten. *)
Lemma transactions_are_first_ten_reshaped_witness :
  let items := repeat transfer_25_5 12 in
  let w := world 1700000600000 (listing items) down balance_2_5 in
  let out := GET_ref w request_25_5 in
  exists outs,
    field "transactions" (json (reply out)) = JArray outs
    /\ length outs = Nat.min 10 (length items)
    /\ Forall2 (reshaped Math_pow_ref Number_toString_ref) (firstn 10 items) outs.
Proof.
  intros items w.
  apply (proj2 (transactions_are_first_ten_reshaped Math_pow_ref Number_toString_ref)
           w payee "25.5" first_endpoint (explorer_body "1" "OK" (JArray items)) items).
  - discriminate.
  - discriminate.
  - reflexivity.
  - reflexivity.
  - reflexivity.
Defined.

(** C7 as stated fails: the upstream transaction has a block number, and
    its entry in the report has none. *)
Lemma reshaped_transaction_has_no_blockNumber :
  let w := world 1700000600000 (listing [transfer_25_5]) down balance_2_5 in
  let out := GET_ref w request_25_5 in
  field "blockNumber" transfer_25_5 = JString "33500000"
  /\ field "transactions" (json (reply out)) = JArray [transfer_25_5_reshaped]
  /\ field "blockNumber" transfer_25_5_reshaped = JUndefined.
Proof.
  intros w out. repeat split.
Qed.

(** C2 at the failing input: the first host answers with the JSON text
    [null]; it parses, the loop stops there, and the handler answers that
    all endpoints failed. *)
Lemma falsy_body_is_taken_for_failure :
  let w := world 1700000600000 (answers JNull) down balance_2_5 in
  let out := GET_ref w request_25_5 in
  parses w first_endpoint = Some JNull
  /\ outbound out = [first_endpoint]
  /\ reply out = manual_mode payee (etherscanApiKey w) None
  /\ field "manualMode" (json (reply out)) = JBool true
  /\ field "message" (field "apiStatus" (json (reply out)))
     = JString "All API endpoints failed. Last error: null".
Proof.
  intros w out. repeat split.
Qed.

(** C4 at the failing input: the transfer query carries the API key, and
    the balance query, cut at [&page=], carries none. *)
Lemma balance_query_carries_no_key :
  let w := world 1700000600000 (listing [transfer_25_5]) down balance_2_5 in
  let out := GET_ref w request_25_5 in
  outbound out = [first_endpoint; first_balance_query]
  /\ includes first_endpoint ("&apikey=" ++ etherscanApiKey w) = true
  /\ includes first_balance_query "apikey" = false
  /\ includes first_balance_query (etherscanApiKey w) = false.
Proof.
  intros w out. repeat split.
Qed.

(** ** The further properties on concrete requests *)

(** X1 at work: the first host is down, the second lists a transfer, and
    three requests are made: the two transfer queries and the balance
    query of the second host. *)
Lemma outbound_requests_are_bounded_witness :
  let w := world 1700000600000 down (listing [transfer_25_5]) balance_2_5 in
  let out := GET_ref w request_25_5 in
  first_parsed w (apiEndpoints payee (etherscanApiKey w))
  = Some (second_endpoint, explorer_body "1" "OK" (JArray [transfer_25_5]))
  /\ outbound out = [first_endpoint; second_endpoint; balanceUrl second_endpoint]
  /\ (length (outbound out) <= 3)%nat
  /\ exists before after,
       apiEndpoints payee (etherscanApiKey w) = (before ++ second_endpoint :: after)%list
       /\ Forall (fun u => parses w u = None) before
       /\ outbound out = (before ++ [second_endpoint; balanceUrl second_endpoint])%list.
Proof.
  intros w out.
  destruct (outbound_requests_are_bounded Math_pow_ref Number_toString_ref w payee "25.5")
    as (_ & Hstops & Hlength); [discriminate | discriminate |].
  destruct (Hstops second_endpoint (explorer_body "1" "OK" (JArray [transfer_25_5]))
              eq_refl) as (before & after & Hends & Hfail & _ & Hout).
  split; [reflexivity |]. split; [reflexivity |]. split; [exact Hlength |].
  exists before, after. split; [exact Hends |]. split; [exact Hfail | exact Hout].
Defined.

(** X2 at work: the first host is down and the second answers 503. *)
Lemma last_error_is_reported_witness :
  let w := world 1700000600000 down unavailable balance_2_5 in
  let out := GET_ref w request_25_5 in
  field "message" (field "apiStatus" (json (reply out)))
  = JString "All API endpoints failed. Last error: HTTP 503: Service Unavailable"
  /\ exists error,
       tryEndpoint w (last (apiEndpoints payee (etherscanApiKey w)) "") = Failed error
       /\ reply out = manual_mode payee (etherscanApiKey w) (Some error)
       /\ outbound out = apiEndpoints payee (etherscanApiKey w)
       /\ field "lastError" (field "debugInfo" (json (reply out))) = JString error
       /\ field "message" (field "apiStatus" (json (reply out)))
          = JString ("All API endpoints failed. Last error: " ++ error)
       /\ (forall response,
             fetch w (last (apiEndpoints payee (etherscanApiKey w)) "") = Resolved response ->
             ok response = false ->
             error = "HTTP " ++ decimal (status response) ++ ": " ++ statusText response)
       /\ (forall message,
             fetch w (last (apiEndpoints payee (etherscanApiKey w)) "")
             = Rejected (ErrorObject message) ->
             includes message "fetch failed" = true
             \/ includes message "ENOTFOUND" = true ->
             error = "Network connectivity issue in serverless environment").
Proof.
  intros w out. split; [reflexivity |].
  apply (last_error_is_reported Math_pow_ref Number_toString_ref w payee "25.5").
  - discriminate.
  - discriminate.
  - reflexivity.
Defined.

(** X3 at work: the listing with a transfer that lacks its recipient. *)
Lemma network_errors_never_reach_the_catch_witness :
  let w := world 1700000600000 (listing [transfer_25_5; transfer_without_to])
                 down balance_2_5 in
  let out := GET_ref w request_25_5 in
  runtime_error (cannot_read "undefined" "toLowerCase")
  /\ isNetworkError (cannot_read "undefined" "toLowerCase") = false
  /\ field "manualMode" (json (reply out)) = JBool false
  /\ field "message" (field "apiStatus" (json (reply out))) = JString "Request failed".
Proof.
  intros w.
  apply (proj1 (network_errors_never_reach_the_catch Math_pow_ref Number_toString_ref)
           w payee "25.5" (cannot_read "undefined" "toLowerCase")).
  - discriminate.
  - discriminate.
  - reflexivity.
Defined.

(** X5 at work: the payee's address in lower case. *)
Lemma judgement_ignores_the_case_of_the_address_witness :
  let w := world 1700000600000 (listing [transfer_25_5]) down balance_2_5 in
  let body := explorer_body "1" "OK" (JArray [transfer_25_5]) in
  judge Math_pow_ref Number_toString_ref w payee "25.5" body
  = judge Math_pow_ref Number_toString_ref w
      "0xabc0000000000000000000000000000000000001" "25.5" body.
Proof.
  intros w body.
  apply (judgement_ignores_the_case_of_the_address Math_pow_ref Number_toString_ref).
  reflexivity.
Defined.

(** X6 at work: the amount "abc", against a listing that would confirm
    25.5. *)
Lemma amount_that_is_no_number_is_never_confirmed_witness :
  let w := world 1700000600000 (listing [transfer_25_5]) down balance_2_5 in
  field "confirmed"
    (json (reply (GET_ref w {| address_param := Some payee;
                               amount_param := Some "abc" |})))
  = JBool false.
Proof.
  intros w.
  apply (amount_that_is_no_number_is_never_confirmed Math_pow_ref Number_toString_ref
           w {| address_param := Some payee; amount_param := Some "abc" |} "abc").
  - reflexivity.
  - reflexivity.
Defined.

(** X7 at work: both hosts down, under the default key. *)
Lemma api_key_is_redacted_witness :
  let w := world 1700000600000 down down balance_2_5 in
  let out := GET_ref w request_25_5 in
  let debugInfo := field "debugInfo" (json (reply out)) in
  (field "manualMode" (json (reply out)) = JBool true ->
   field "testedEndpoints" debugInfo
   = JArray [ JString (endpoint_stem "api.bscscan.com" payee ++ "***");
              JString (endpoint_stem "api-bsc.etherscan.io" payee ++ "***") ])
  /\ (field "workingEndpoint" debugInfo = JUndefined
      \/ exists host,
           In host ["api.bscscan.com"; "api-bsc.etherscan.io"]
           /\ field "workingEndpoint" debugInfo
              = JString (endpoint_stem host payee ++ "***")).
Proof.
  intros w.
  apply (api_key_is_redacted Math_pow_ref Number_toString_ref w payee "25.5").
  - discriminate.
  - discriminate.
  - intros host [<- | [<- | []]]; reflexivity.
Defined.

(** X8 at work: the payee's address. *)
Lemma balance_query_is_built_from_the_endpoint_witness :
  map balanceUrl (apiEndpoints payee "YMURRBM3WND7ZIJM8S1C5HEQXQK6W4S45B")
  = [ balance_query "api.bscscan.com" payee;
      balance_query "api-bsc.etherscan.io" payee ].
Proof.
  apply (balance_query_is_built_from_the_endpoint payee).
  reflexivity.
Defined.

(** X9 at work: the explorer answers that the rate limit is reached. *)
Lemma result_that_is_no_array_fails_the_request_witness :
  let w := world 1700000600000 (answers rate_limited) down balance_2_5 in
  let out := GET_ref w request_25_5 in
  reply out = request_failed (not_a_function "data.result.slice(...).map")
  /\ field "message" (field "apiStatus" (json (reply out))) = JString "Request failed"
  /\ field "result" (field "apiStatus" (json (reply out)))
     = JString "data.result.slice(...).map is not a function"
  /\ field "balance" (json (reply out)) = JNumber 0
  /\ exists before after,
       apiEndpoints payee (etherscanApiKey w) = (before ++ first_endpoint :: after)%list
       /\ outbound out = (before ++ [first_endpoint; balanceUrl first_endpoint])%list.
Proof.
  intros w.
  apply (result_that_is_no_array_fails_the_request Math_pow_ref Number_toString_ref
           w payee "25.5" first_endpoint rate_limited).
  - discriminate.
  - discriminate.
  - reflexivity.
  - reflexivity.
  - reflexivity.
  - reflexivity.
Defined.
